(** * cursor-rules-craft: the streaming event protocol and its client-side
      reconstruction

    A shallow embedding of

    - [apps/frontend/src/hooks/useRuleGeneration.ts] (the [generateRule]
      read loop: chunk decoder, line filter, per-event state updates), and
    - the [AIChatPanel] component (completion gate, processed-message guard,
      event line parser, [handleStreamingEvent]),

    together with the properties of the streaming protocol that the
    specification states about them.

    Conventions.  Text is the [string] of its UTF-8 bytes; a line feed is
    the byte 10, which never occurs inside a multi-byte UTF-8 sequence, so
    splitting the decoded text on line feeds and splitting the bytes agree.  [JSON.parse]
    is a platform function and is a parameter of the development: every
    theorem holds for whatever parser the platform supplies.  React state
    updates ([setState (prev => ...)]) are applied in the order in which they
    are queued, so a queued updater is modelled as a function on the state
    record; an updater that reads a loop variable is taken to read the value
    the variable has when the update is queued (every assignment to such a
    variable is followed by an update that stores it, so the state agrees
    whenever no update is pending).  The optional [onChunk] observer of
    [generateRule] is taken to be absent, and the reader is taken to deliver
    its fragments and then report [done].  A [handleStreamingEvent] reads
    the [isGeneratingRules] and [ruleContent] of the render that created it,
    and the events a render queues are handled by that render's handler (the
    [setTimeout] is taken to fire before the next render). *)

From Stdlib Require Import String Ascii List Bool Arith Lia DecimalString.
From stdpp Require Import base option list strings gmap sets.
From Stdlib Require QArith.
From Stdlib Require Import NArith.
Import ListNotations.

Local Open Scope string_scope.
Local Open Scope list_scope.

(* Let [simpl] compute string concatenation on constructors. *)
#[local] Arguments String.append !s1 s2 / : simpl nomatch.

(* ===================================================================== *)
(** ** JavaScript string and array primitives used by the source *)
(* ===================================================================== *)

Module JS.

Definition LF : ascii := ascii_of_nat 10.

(** [s.split('\n')]: never empty, [''.split('\n')] is [['']]. *)
Fixpoint split_lf (s : string) : list string :=
  match s with
  | EmptyString => [EmptyString]
  | String c s' =>
      if Ascii.eqb c LF then EmptyString :: split_lf s'
      else match split_lf s' with
           | [] => [String c EmptyString]
           | l :: ls => String c l :: ls
           end
  end.

(** [lines.pop()]: the removed last element (or [undefined]) and the
    array that is left. *)
Definition pop {A} (lines : list A) : option A * list A :=
  (last lines, removelast lines).

(** [a || d] on a possibly undefined string: the empty string is falsy. *)
Definition or_else (a : option string) (d : string) : string :=
  match a with
  | Some (String c s) => String c s
  | _ => d
  end.

(** [if (a)] on a possibly undefined string. *)
Definition truthy (a : option string) : bool :=
  match a with
  | Some (String _ _) => true
  | _ => false
  end.

(** [s.startsWith(p)] *)
Fixpoint startsWith (s p : string) : bool :=
  match p, s with
  | EmptyString, _ => true
  | String a p', String b s' => Ascii.eqb a b && startsWith s' p'
  | String _ _, EmptyString => false
  end.

(** [s.slice(n)] for [0 <= n] *)
Fixpoint slice (s : string) (n : nat) : string :=
  match n, s with
  | O, _ => s
  | S n', String _ s' => slice s' n'
  | S _, EmptyString => EmptyString
  end.

(** White space removed by [trim] (ECMAScript [WhiteSpace] and
    [LineTerminator]), on the UTF-8 bytes of the text.  In one byte: tab,
    line feed, vertical tab, form feed, carriage return and space. *)
Definition is_space (c : ascii) : bool :=
  let n := nat_of_ascii c in
  (Nat.leb 9 n && Nat.leb n 13) || Nat.eqb n 32.

Definition is_byte (c : ascii) (n : nat) : bool := Nat.eqb (nat_of_ascii c) n.

(** In two bytes: U+00A0 (no-break space). *)
Definition is_space2 (a b : ascii) : bool := is_byte a 194 && is_byte b 160.

(** In three bytes: U+1680, U+2000 to U+200A, the line and paragraph
    separators U+2028 and U+2029, U+202F, U+205F, U+3000 and the byte
    order mark U+FEFF. *)
Definition is_space3 (a b c : ascii) : bool :=
  let n := nat_of_ascii c in
  (is_byte a 225 && is_byte b 154 && is_byte c 128)
  || (is_byte a 226 && is_byte b 128
      && ((Nat.leb 128 n && Nat.leb n 138)
          || Nat.eqb n 168 || Nat.eqb n 169 || Nat.eqb n 175))
  || (is_byte a 226 && is_byte b 129 && is_byte c 159)
  || (is_byte a 227 && is_byte b 128 && is_byte c 128)
  || (is_byte a 239 && is_byte b 187 && is_byte c 191).

(** Drops the leading white space. *)
Fixpoint trim_start (s : string) : string :=
  match s with
  | EmptyString => EmptyString
  | String a s1 =>
      if is_space a then trim_start s1
      else match s1 with
           | EmptyString => s
           | String b s2 =>
               if is_space2 a b then trim_start s2
               else match s2 with
                    | EmptyString => s
                    | String c s3 =>
                        if is_space3 a b c then trim_start s3 else s
                    end
           end
  end.

(** The text is white space only. *)
Definition all_space (s : string) : bool := String.eqb (trim_start s) "".

(** Drops the trailing white space: the longest suffix that is white
    space only.  (A suffix that starts inside a multi-byte sequence starts
    with a continuation byte, which begins no white space.) *)
Fixpoint trim_end (s : string) : string :=
  match s with
  | EmptyString => EmptyString
  | String c s' => if all_space s then EmptyString else String c (trim_end s')
  end.

(** [s.trim()] *)
Definition trim (s : string) : string := trim_end (trim_start s).

(** Template literal rendering of a non-negative number. *)
Definition show_nat (n : nat) : string :=
  NilZero.string_of_uint (Nat.to_uint n).

(** No line feed occurs in [s]. *)
Fixpoint no_lf (s : string) : bool :=
  match s with
  | EmptyString => true
  | String c s' => negb (Ascii.eqb c LF) && no_lf s'
  end.

(** What a line is on the wire: the line and its line feed. *)
Definition terminated (line : string) : string := line +:+ String LF "".

(** The whole text of a sequence of fragments. *)
Definition concat_text (fragments : list string) : string :=
  fold_right String.append EmptyString fragments.

End JS.

(* ===================================================================== *)
(** ** [useRuleGeneration]: session state, reducer and read loop *)
(* ===================================================================== *)

Module RuleGeneration.
Import JS.

Inductive Phase := idle | rule_generation | follow_up_message | completed.

Inductive RuleType := PROJECT_RULE | COMMAND | USER_RULE.

(** [RuleGenerationState['metadata']] *)
Record Metadata := {
  ruleType : RuleType;
  fileName : option string;
}.

Record RuleGenerationState := {
  isGenerating : bool;
  isStreamingRule : bool;
  isStreamingFollowUp : bool;
  currentPhase : Phase;
  ruleContent : string;
  followUpContent : string;
  error : option string;
  metadata : option Metadata;
}.

(** Modelled from the spec: the declaration of [RuleGenerationStreamChunk]
    ([@frontend/types/ai-messages]) is not among the sources; the fields
    are those of the spec's [StreamEvent] (section 3) and those the read
    loop accesses.  [chunk_type] is the [type] discriminant, an absent
    optional field is [None]. *)
Record RuleGenerationStreamChunk := {
  chunk_type : string;
  chunk_phase : option string;
  chunk_content : option string;
  chunk_finalContent : option string;
  chunk_errorText : option string;
  chunk_metadata : option Metadata;
}.

(** The part of [RuleGenerationRequest] that [generateRule] reads. *)
Record RuleGenerationRequest := {
  model : option string;
  provider : option string;
}.

Record GenerationMetadata := {
  generatedAt : nat;
  res_model : string;
  res_provider : string;
}.

Record RuleGenerationResponse := {
  res_ruleContent : string;
  res_followUpMessage : string;
  res_ruleType : RuleType;
  res_fileName : string;
  res_metadata : GenerationMetadata;
}.

(** The [Response] of [fetch]; [body] is the sequence of decoded text
    fragments the reader yields before it reports [done]. *)
Record Response := {
  ok : bool;
  status : nat;
  statusText : string;
  body : option (list string);
}.

Definition with_body (response : Response) (fragments : list string)
  : Response :=
  {| ok := ok response; status := status response;
     statusText := statusText response; body := Some fragments |}.

(** How the promise returned by [generateRule] settles. *)
Inductive Settled :=
| Resolved (result : RuleGenerationResponse)
| Rejected (message : string).

(** The variables of the read loop ([let buffer], [let currentRuleContent],
    [let currentFollowUpContent], [let metadata]) next to the React
    state. *)
Record Loop := {
  state : RuleGenerationState;
  buffer : string;
  currentRuleContent : string;
  currentFollowUpContent : string;
  loop_metadata : option Metadata;
}.

(** How a block of statements completes. *)
Inductive Completion :=
| Normal
| Throw (message : string).

(** The initial [useState] value, also installed by [reset]. *)
Definition idle_state : RuleGenerationState :=
  {| isGenerating := false; isStreamingRule := false;
     isStreamingFollowUp := false; currentPhase := idle;
     ruleContent := ""; followUpContent := ""; error := None;
     metadata := None |}.

Definition reset (_ : RuleGenerationState) : RuleGenerationState := idle_state.

(** The update queued on entry to [generateRule] (lines 59-66). *)
Definition on_entry (prev : RuleGenerationState) : RuleGenerationState :=
  {| isGenerating := true; isStreamingRule := isStreamingRule prev;
     isStreamingFollowUp := isStreamingFollowUp prev;
     currentPhase := rule_generation;
     ruleContent := ""; followUpContent := ""; error := None;
     metadata := metadata prev |}.

(** The update of the outer [catch] (lines 206-213). *)
Definition on_failure (errorMessage : string) (prev : RuleGenerationState)
  : RuleGenerationState :=
  {| isGenerating := false; isStreamingRule := false;
     isStreamingFollowUp := false; currentPhase := idle;
     ruleContent := ruleContent prev; followUpContent := followUpContent prev;
     error := Some errorMessage; metadata := metadata prev |}.

Definition with_state (l : Loop) (s : RuleGenerationState) : Loop :=
  {| state := s; buffer := buffer l;
     currentRuleContent := currentRuleContent l;
     currentFollowUpContent := currentFollowUpContent l;
     loop_metadata := loop_metadata l |}.

Definition with_buffer (l : Loop) (b : string) : Loop :=
  {| state := state l; buffer := b;
     currentRuleContent := currentRuleContent l;
     currentFollowUpContent := currentFollowUpContent l;
     loop_metadata := loop_metadata l |}.

(** [case 'phase-start'] *)
Definition phase_start (chunk : RuleGenerationStreamChunk) (l : Loop) : Loop :=
  let prev := state l in
  if decide (chunk_phase chunk = Some "rule-generation") then
    {| state :=
         {| isGenerating := isGenerating prev; isStreamingRule := true;
            isStreamingFollowUp := isStreamingFollowUp prev;
            currentPhase := rule_generation;
            ruleContent := ruleContent prev;
            followUpContent := followUpContent prev;
            error := error prev; metadata := chunk_metadata chunk |};
       buffer := buffer l;
       currentRuleContent := currentRuleContent l;
       currentFollowUpContent := currentFollowUpContent l;
       loop_metadata := chunk_metadata chunk |}
  else if decide (chunk_phase chunk = Some "follow-up-message") then
    with_state l
      {| isGenerating := isGenerating prev; isStreamingRule := false;
         isStreamingFollowUp := true; currentPhase := follow_up_message;
         ruleContent := ruleContent prev;
         followUpContent := followUpContent prev;
         error := error prev; metadata := metadata prev |}
  else l.

(** [case 'rule-content'] *)
Definition rule_content (chunk : RuleGenerationStreamChunk) (l : Loop) : Loop :=
  let prev := state l in
  if truthy (chunk_content chunk) then
    let current := currentRuleContent l +:+ default "" (chunk_content chunk) in
    {| state :=
         {| isGenerating := isGenerating prev;
            isStreamingRule := isStreamingRule prev;
            isStreamingFollowUp := isStreamingFollowUp prev;
            currentPhase := currentPhase prev;
            ruleContent := current;
            followUpContent := followUpContent prev;
            error := error prev; metadata := metadata prev |};
       buffer := buffer l;
       currentRuleContent := current;
       currentFollowUpContent := currentFollowUpContent l;
       loop_metadata := loop_metadata l |}
  else l.

(** [case 'follow-up-content'] *)
Definition follow_up_content (chunk : RuleGenerationStreamChunk) (l : Loop)
  : Loop :=
  let prev := state l in
  if truthy (chunk_content chunk) then
    let current := currentFollowUpContent l +:+ default "" (chunk_content chunk) in
    {| state :=
         {| isGenerating := isGenerating prev;
            isStreamingRule := isStreamingRule prev;
            isStreamingFollowUp := isStreamingFollowUp prev;
            currentPhase := currentPhase prev;
            ruleContent := ruleContent prev;
            followUpContent := current;
            error := error prev; metadata := metadata prev |};
       buffer := buffer l;
       currentRuleContent := currentRuleContent l;
       currentFollowUpContent := current;
       loop_metadata := loop_metadata l |}
  else l.

(** [case 'phase-end'] *)
Definition phase_end (chunk : RuleGenerationStreamChunk) (l : Loop) : Loop :=
  let prev := state l in
  if decide (chunk_phase chunk = Some "rule-generation") then
    let current := or_else (chunk_finalContent chunk) (currentRuleContent l) in
    {| state :=
         {| isGenerating := isGenerating prev; isStreamingRule := false;
            isStreamingFollowUp := isStreamingFollowUp prev;
            currentPhase := currentPhase prev;
            ruleContent := current;
            followUpContent := followUpContent prev;
            error := error prev; metadata := metadata prev |};
       buffer := buffer l;
       currentRuleContent := current;
       currentFollowUpContent := currentFollowUpContent l;
       loop_metadata := loop_metadata l |}
  else if decide (chunk_phase chunk = Some "follow-up-message") then
    let current :=
      or_else (chunk_finalContent chunk) (currentFollowUpContent l) in
    {| state :=
         {| isGenerating := false;
            isStreamingRule := isStreamingRule prev;
            isStreamingFollowUp := false; currentPhase := completed;
            ruleContent := ruleContent prev;
            followUpContent := current;
            error := error prev; metadata := metadata prev |};
       buffer := buffer l;
       currentRuleContent := currentRuleContent l;
       currentFollowUpContent := current;
       loop_metadata := loop_metadata l |}
  else l.

(** The message of [case 'error']. *)
Definition error_message (chunk : RuleGenerationStreamChunk) : string :=
  or_else (chunk_errorText chunk) "Unknown error occurred".

(** [case 'error']: the state update that precedes the [throw]. *)
Definition error_event (chunk : RuleGenerationStreamChunk) (l : Loop) : Loop :=
  let prev := state l in
  with_state l
    {| isGenerating := false; isStreamingRule := false;
       isStreamingFollowUp := false; currentPhase := idle;
       ruleContent := ruleContent prev;
       followUpContent := followUpContent prev;
       error := Some (error_message chunk); metadata := metadata prev |}.

(** [switch (chunk.type)] (lines 113-183): the loop variables and state
    after it, and how it completes.  There is no [default] case. *)
Definition switch_chunk (chunk : RuleGenerationStreamChunk) (l : Loop)
  : Loop * Completion :=
  let type := chunk_type chunk in
  if String.eqb type "phase-start" then (phase_start chunk l, Normal)
  else if String.eqb type "rule-content" then (rule_content chunk l, Normal)
  else if String.eqb type "follow-up-content" then
    (follow_up_content chunk l, Normal)
  else if String.eqb type "phase-end" then (phase_end chunk l, Normal)
  else if String.eqb type "error" then
    (error_event chunk l, Throw (error_message chunk))
  else (l, Normal).

(** The chunk decoder (lines 97-99): the complete lines of
    [buffer + value] and the new buffer. *)
Definition decode (buffer value : string) : list string * string :=
  let lines := split_lf (buffer +:+ value) in
  let '(popped, lines) := pop lines in
  (lines, or_else popped "").

(** The lines the decoder hands to the [for] loop over a whole
    stream, and the buffer that is left when the reader reports
    [done]. *)
Fixpoint decoded (fragments : list string) (buffer : string)
  : list string * string :=
  match fragments with
  | [] => ([], buffer)
  | value :: rest =>
      let '(lines, buffer') := decode buffer value in
      let '(more, final) := decoded rest buffer' in
      (lines ++ more, final)
  end.

(** The complete lines of a text and the unterminated rest after its
    last line feed: [split_lf s] is the lines followed by the rest. *)
Fixpoint cut (s : string) : list string * string :=
  match s with
  | EmptyString => ([], EmptyString)
  | String c s' =>
      let '(lines, rest) := cut s' in
      if Ascii.eqb c LF then (EmptyString :: lines, rest)
      else match lines with
           | [] => ([], String c rest)
           | l :: ls => (String c l :: ls, rest)
           end
  end.

(** The state and loop variables after [switch (chunk.type)]. *)
Definition apply_chunk (chunk : RuleGenerationStreamChunk) (l : Loop) : Loop :=
  fst (switch_chunk chunk l).

(** The chunks applied one after the other, in order. *)
Definition apply_chunks (chunks : list RuleGenerationStreamChunk) (l : Loop)
  : Loop :=
  fold_left (fun l chunk => apply_chunk chunk l) chunks l.

(** The loop variables that accumulate content agree with the state. *)
Definition coherent (l : Loop) : Prop :=
  currentRuleContent l = ruleContent (state l)
  /\ currentFollowUpContent l = followUpContent (state l).

(** A terminal event of the phased stream: [error], or the [phase-end]
    of the follow-up phase. *)
Definition terminal (chunk : RuleGenerationStreamChunk) : bool :=
  String.eqb (chunk_type chunk) "error"
  || (String.eqb (chunk_type chunk) "phase-end"
      && bool_decide (chunk_phase chunk = Some "follow-up-message")).

Section ReadLoop.

(** [JSON.parse] followed by the cast to [RuleGenerationStreamChunk];
    [None] when the call, or the property access on its result,
    throws. *)
Variable JSON_parse : string -> option RuleGenerationStreamChunk.

(** The [try { ... } catch (parseError) { console.warn (...) }] block
    of lines 107-186.  The [catch] has no re-throw: whatever is thrown
    inside the block, the parse error as well as the [Error] of
    [case 'error'], is logged and the [for] loop goes on. *)
Definition try_chunk (jsonStr : string) (l : Loop) : Loop * Completion :=
  match JSON_parse jsonStr with
  | None => (l, Normal)
  | Some chunk =>
      match switch_chunk chunk l with
      | (l', Normal) => (l', Normal)
      | (l', Throw _) => (l', Normal)
      end
  end.

(** The body of [for (const line of lines)] (lines 102-187). *)
Definition for_line (line : string) (l : Loop) : Loop * Completion :=
  if String.eqb (trim line) "" then (l, Normal)
  else if startsWith line "data: " then try_chunk (slice line 6) l
  else (l, Normal).

(** [for (const line of lines) { ... }]: a [Throw] leaves the loop. *)
Fixpoint for_lines (lines : list string) (l : Loop) : Loop * Completion :=
  match lines with
  | [] => (l, Normal)
  | line :: rest =>
      match for_line line l with
      | (l', Normal) => for_lines rest l'
      | (l', Throw m) => (l', Throw m)
      end
  end.

(** [while (true) { read; if (done) break; decode; for ... }], over
    the fragments the reader yields. *)
Fixpoint read_loop (fragments : list string) (l : Loop) : Loop * Completion :=
  match fragments with
  | [] => (l, Normal)
  | value :: rest =>
      let '(lines, buffer') := decode (buffer l) value in
      match for_lines lines (with_buffer l buffer') with
      | (l', Normal) => read_loop rest l'
      | (l', Throw m) => (l', Throw m)
      end
  end.

(** The chunk the [for] body obtains from a line, if any. *)
Definition chunk_of_line (line : string) : option RuleGenerationStreamChunk :=
  if String.eqb (trim line) "" then None
  else if startsWith line "data: " then JSON_parse (slice line 6)
  else None.

(** The chunks a sequence of lines delivers. *)
Definition chunks_of_lines (lines : list string)
  : list RuleGenerationStreamChunk :=
  omap chunk_of_line lines.

(** The [for] loop run over [lines], keeping the loop variables. *)
Definition run_lines (lines : list string) (l : Loop) : Loop :=
  fold_left (fun l line => fst (for_line line l)) lines l.

(** The chunks a whole stream delivers to the [switch]: those of the
    lines the decoder emits. *)
Definition observed (fragments : list string) : list RuleGenerationStreamChunk :=
  chunks_of_lines (fst (decoded fragments "")).

Definition start_loop (s : RuleGenerationState) : Loop :=
  {| state := s; buffer := ""; currentRuleContent := "";
     currentFollowUpContent := ""; loop_metadata := None |}.

(** The [result] literal of lines 191-201. *)
Definition result_of (request : RuleGenerationRequest) (now : nat) (l : Loop)
  : RuleGenerationResponse :=
  {| res_ruleContent := currentRuleContent l;
     res_followUpMessage := currentFollowUpContent l;
     res_ruleType :=
       match loop_metadata l with
       | Some m => ruleType m
       | None => PROJECT_RULE
       end;
     res_fileName :=
       or_else (m ← loop_metadata l; fileName m) "generated-rule";
     res_metadata :=
       {| generatedAt := now;
          res_model := or_else (model request) "llama-3.3-70b-versatile";
          res_provider := or_else (provider request) "groq" |} |}.

(** [generateRule (request)] called with the React state [prev], the
    [fetch] answering [response] and [Date.now ()] answering [now]:
    the state after the call and how the promise settles. *)
Definition generateRule (request : RuleGenerationRequest) (now : nat)
    (response : Response) (prev : RuleGenerationState)
  : RuleGenerationState * Settled :=
  let s := on_entry prev in
  let attempt : Loop * Completion :=
    if negb (ok response) then
      (start_loop s,
       Throw ("HTTP " +:+ show_nat (status response) +:+ ": "
              +:+ statusText response))
    else
      match body response with
      | None => (start_loop s, Throw "Response body is null")
      | Some fragments => read_loop fragments (start_loop s)
      end in
  match attempt with
  | (l, Normal) => (state l, Resolved (result_of request now l))
  | (l, Throw errorMessage) =>
      (on_failure errorMessage (state l), Rejected errorMessage)
  end.

End ReadLoop.

End RuleGeneration.

(* ===================================================================== *)
(** ** [AIChatPanel]: completion gate, processed-message guard, event
       line parser and [handleStreamingEvent] *)
(* ===================================================================== *)

Module ChatPanel.
Import JS.

(** [TextUIPart['state']] *)
Inductive PartState := streaming | done.

(** A message part: a text part with its optional [state], or a part of
    another [type]. *)
Inductive UIPart :=
| TextUIPart (text : string) (state : option PartState)
| OtherUIPart (type : string).

Inductive Role := system | user | assistant.

(** [parts] is optional because the effect reads it through [?.] and
    [Array.isArray]; [content] is the legacy property read through
    ['content' in lastMessage]. *)
Record UIMessage := {
  msg_id : string;
  role : Role;
  parts : option (list UIPart);
  content : option string;
}.

(** [StreamingEvent['payload']] *)
Record Payload := {
  id : option string;
  rule_type : option string;
  tech_stack : option (list string);
  filename : option string;
  schema_version : option string;
  payload_content : option string;
  message : option string;
}.

(** The object [JSON.parse] returns, read as a [StreamingEvent]: [event]
    is [None] when the property is missing or is not a string. *)
Record StreamingEvent := {
  event : option string;
  payload : option Payload;
}.

(** The props the panel calls back. *)
Inductive Callback :=
| onRuleGenerationStart (meta : Payload)
| onRuleGenerationUpdate (content : string)
| onRuleGenerationEnd
| onClarify (clarify : Payload).

(** The state and refs of the component that the stream handling uses,
    with the calls made to the props so far. *)
Record Panel := {
  isGeneratingRules : bool;
  ruleContent : string;
  eventOnlyMessageIds : gset string;
  pendingEventsRef : list StreamingEvent;
  processedMessageIdsRef : gset string;
  calls : list Callback;
}.

(** What a render's [handleStreamingEvent] closes over: the values of
    [isGeneratingRules] and [ruleContent] of that render (the dependency
    list of the [useCallback]). *)
Record Render := {
  render_isGeneratingRules : bool;
  render_ruleContent : string;
}.

Definition render_of (p : Panel) : Render :=
  {| render_isGeneratingRules := isGeneratingRules p;
     render_ruleContent := ruleContent p |}.

Definition initial : Panel :=
  {| isGeneratingRules := false; ruleContent := "";
     eventOnlyMessageIds := ∅; pendingEventsRef := [];
     processedMessageIdsRef := ∅; calls := [] |}.

Definition setIsGeneratingRules (b : bool) (p : Panel) : Panel :=
  {| isGeneratingRules := b; ruleContent := ruleContent p;
     eventOnlyMessageIds := eventOnlyMessageIds p;
     pendingEventsRef := pendingEventsRef p;
     processedMessageIdsRef := processedMessageIdsRef p;
     calls := calls p |}.

(** [setRuleContent (updater)] *)
Definition setRuleContent (updater : string -> string) (p : Panel) : Panel :=
  {| isGeneratingRules := isGeneratingRules p;
     ruleContent := updater (ruleContent p);
     eventOnlyMessageIds := eventOnlyMessageIds p;
     pendingEventsRef := pendingEventsRef p;
     processedMessageIdsRef := processedMessageIdsRef p;
     calls := calls p |}.

Definition call (c : Callback) (p : Panel) : Panel :=
  {| isGeneratingRules := isGeneratingRules p;
     ruleContent := ruleContent p;
     eventOnlyMessageIds := eventOnlyMessageIds p;
     pendingEventsRef := pendingEventsRef p;
     processedMessageIdsRef := processedMessageIdsRef p;
     calls := calls p ++ [c] |}.

Definition call_if_payload (k : Payload -> Callback) (e : StreamingEvent)
    (p : Panel) : Panel :=
  match payload e with
  | Some pl => call (k pl) p
  | None => p
  end.

(** [event.payload?.content || ''] *)
Definition content_of (e : StreamingEvent) : string :=
  or_else (pl ← payload e; payload_content pl) "".

(** [handleStreamingEvent] (lines 296-337) as created by the render [r]. *)
Definition handleStreamingEvent (r : Render) (e : StreamingEvent) (p : Panel)
  : Panel :=
  match event e with
  | Some name =>
      if String.eqb name "meta" then
        call_if_payload onRuleGenerationStart e
          (setRuleContent (fun _ => "") (setIsGeneratingRules true p))
      else if String.eqb name "chunk" then
        if render_isGeneratingRules r then
          call (onRuleGenerationUpdate (render_ruleContent r +:+ content_of e))
            (setRuleContent (fun prev => prev +:+ content_of e) p)
        else p
      else if String.eqb name "done" then
        call onRuleGenerationEnd (setIsGeneratingRules false p)
      else if String.eqb name "error" then
        call onRuleGenerationEnd (setIsGeneratingRules false p)
      else if String.eqb name "clarify" then
        call_if_payload onClarify e
          (call onRuleGenerationEnd (setIsGeneratingRules false p))
      else p
  | None => p
  end.

(** The event names accepted by the parser. *)
Definition event_names : list string :=
  ["meta"; "chunk"; "progress"; "file"; "done"; "error"; "clarify"].

(** [event.event && typeof event.event === 'string' &&
    [...].includes (event.event)] *)
Definition valid_event (e : StreamingEvent) : bool :=
  match event e with
  | Some name => existsb (String.eqb name) event_names
  | None => false
  end.


(** [isDone] of line 358: [undefined] without [parts]. *)
Definition isDone (m : UIMessage) : option bool :=
  ps ← parts m;
  Some (forallb (fun part =>
                   match part with
                   | TextUIPart _ (Some done) => true
                   | TextUIPart _ _ => false
                   | OtherUIPart _ => true
                   end) ps).

(** Which branch of the message effect a run took (its [console.log]
    lines): [Processing] is the only one that reaches the event line
    parser, and it carries the events the parser accepted. *)
Inductive Verdict :=
| SkippingNonAssistant
| SkippingIncomplete (id : string)
| AlreadyProcessed (id : string)
| NoPartsArray (id : string)
| Processing (id : string) (accepted : list StreamingEvent).

Definition add_processed (i : string) (p : Panel) : Panel :=
  {| isGeneratingRules := isGeneratingRules p;
     ruleContent := ruleContent p;
     eventOnlyMessageIds := eventOnlyMessageIds p;
     pendingEventsRef := pendingEventsRef p;
     processedMessageIdsRef := {[ i ]} ∪ processedMessageIdsRef p;
     calls := calls p |}.

Definition push_pending (es : list StreamingEvent) (p : Panel) : Panel :=
  {| isGeneratingRules := isGeneratingRules p;
     ruleContent := ruleContent p;
     eventOnlyMessageIds := eventOnlyMessageIds p;
     pendingEventsRef := pendingEventsRef p ++ es;
     processedMessageIdsRef := processedMessageIdsRef p;
     calls := calls p |}.

Definition add_event_only (i : string) (p : Panel) : Panel :=
  {| isGeneratingRules := isGeneratingRules p;
     ruleContent := ruleContent p;
     eventOnlyMessageIds := eventOnlyMessageIds p ∪ {[ i ]};
     pendingEventsRef := pendingEventsRef p;
     processedMessageIdsRef := processedMessageIdsRef p;
     calls := calls p |}.

Definition clear_pending (p : Panel) : Panel :=
  {| isGeneratingRules := isGeneratingRules p;
     ruleContent := ruleContent p;
     eventOnlyMessageIds := eventOnlyMessageIds p;
     pendingEventsRef := [];
     processedMessageIdsRef := processedMessageIdsRef p;
     calls := calls p |}.

(** [resetSession] (lines 536-547), as far as this state goes. *)
Definition resetSession (p : Panel) : Panel :=
  {| isGeneratingRules := false; ruleContent := "";
     eventOnlyMessageIds := ∅;
     pendingEventsRef := pendingEventsRef p;
     processedMessageIdsRef := ∅;
     calls := calls p ++ [onRuleGenerationEnd] |}.

Section MessageEffects.

(** [JSON.parse] followed by the cast to [StreamingEvent]; [None] when
    the call, or the property access on its result, throws. *)
Variable JSON_parse : string -> option StreamingEvent.

(** One [try { JSON.parse ... } catch { console.log }] of the effect:
    the events to push, none or one. *)
Definition parse_candidate (text : string) : list StreamingEvent :=
  match JSON_parse text with
  | Some e => if valid_event e then [e] else []
  | None => []
  end.

(** The [for (const line of lines)] of lines 429-456. *)
Definition parse_lines (lines : list string) : list StreamingEvent :=
  flat_map (fun line =>
              let trimmedLine := trim line in
              if String.eqb trimmedLine "" then []
              else parse_candidate trimmedLine) lines.

(** The body of [for (const part of msgWithParts.parts)]. *)
Definition parse_part (part : UIPart) : list StreamingEvent :=
  match part with
  | TextUIPart (String c t) _ => parse_lines (split_lf (String c t))
  | _ => []
  end.

(** Lines 389-458: the message content first, then every part. *)
Definition parse_message (m : UIMessage) (ps : list UIPart)
  : list StreamingEvent :=
  (if truthy (content m)
   then parse_candidate (trim (default "" (content m))) else [])
  ++ flat_map parse_part ps.

(** The effect that monitors [chatMessages] (lines 340-468). *)
Definition message_effect (chatMessages : list UIMessage) (p : Panel)
  : Panel * Verdict :=
  match last chatMessages with
  | None => (p, SkippingNonAssistant)
  | Some lastMessage =>
      match role lastMessage with
      | assistant =>
          if negb (default false (isDone lastMessage)) then
            (p, SkippingIncomplete (msg_id lastMessage))
          else if bool_decide
                    (msg_id lastMessage ∈ processedMessageIdsRef p) then
            (p, AlreadyProcessed (msg_id lastMessage))
          else
            let p := add_processed (msg_id lastMessage) p in
            match parts lastMessage with
            | None => (p, NoPartsArray (msg_id lastMessage))
            | Some ps =>
                let accepted := parse_message lastMessage ps in
                let p := push_pending accepted p in
                let p :=
                  match accepted with
                  | [] => p
                  | _ :: _ => add_event_only (msg_id lastMessage) p
                  end in
                (p, Processing (msg_id lastMessage) accepted)
            end
      | _ => (p, SkippingNonAssistant)
      end
  end.

(** The effect that drains the pending events (lines 471-491): the
    events are handled, in order, by the [handleStreamingEvent] of the
    render [r] in which the effect ran. *)
Definition pending_effect (r : Render) (p : Panel) : Panel :=
  match pendingEventsRef p with
  | [] => p
  | events =>
      fold_left (fun p e => handleStreamingEvent r e p) events
        (clear_pending p)
  end.

(** One render with [chatMessages]: both effects, in source order. *)
Definition render (chatMessages : list UIMessage) (p : Panel)
  : Panel * Verdict :=
  let r := render_of p in
  let '(p, v) := message_effect chatMessages p in
  (pending_effect r p, v).

(** Successive renders, with the verdict of each. *)
Fixpoint renders (snapshots : list (list UIMessage)) (p : Panel)
  : Panel * list Verdict :=
  match snapshots with
  | [] => (p, [])
  | chatMessages :: rest =>
      let '(p, v) := render chatMessages p in
      let '(p, vs) := renders rest p in
      (p, v :: vs)
  end.

End MessageEffects.

(** The message [i] was handed to the event line parser. *)
Definition parsed (i : string) (v : Verdict) : bool :=
  match v with
  | Processing j _ => String.eqb i j
  | _ => false
  end.

(** The last message of the snapshot is the assistant message [i] with
    every text part done. *)
Definition settled (i : string) (chatMessages : list UIMessage) : bool :=
  match last chatMessages with
  | Some m =>
      match role m with
      | assistant => String.eqb i (msg_id m) && default false (isDone m)
      | _ => false
      end
  | None => false
  end.


(** The last message of the snapshot has the id [i]. *)
Definition presents (i : string) (chatMessages : list UIMessage) : bool :=
  match last chatMessages with
  | Some m => String.eqb i (msg_id m)
  | None => false
  end.


End ChatPanel.

(* ===================================================================== *)
(** ** The producer of the phased stream *)
(* ===================================================================== *)

Module Producer.
Import RuleGeneration.

Inductive PhaseName := RuleGenerationPhase | FollowUpPhase.

(** Modelled from the spec: the typed events of section 3
    ([StreamEvent]); the server code that emits them is not among the
    sources. *)
Inductive StreamEvent :=
| PhaseStart (phase : PhaseName) (metadata : option Metadata)
| RuleContent (content : string)
| FollowUpContent (content : string)
| PhaseEnd (phase : PhaseName) (finalContent : option string)
| ErrorEvent (errorText : string).

Inductive ProducerState := Idle | RuleGeneration | FollowUp | Completed | Errored.

Definition non_terminal (q : ProducerState) : bool :=
  match q with
  | Idle | RuleGeneration | FollowUp => true
  | Completed | Errored => false
  end.

(** Modelled from the spec: the transitions of the phase state machine
    of section 4.3, each with the events it emits. *)
Inductive transition : ProducerState -> list StreamEvent -> ProducerState -> Prop :=
| begin_rule metadata :
    transition Idle [PhaseStart RuleGenerationPhase metadata] RuleGeneration
| rule_increment content :
    transition RuleGeneration [RuleContent content] RuleGeneration
| begin_follow_up finalContent metadata :
    transition RuleGeneration
      [PhaseEnd RuleGenerationPhase finalContent;
       PhaseStart FollowUpPhase metadata] FollowUp
| follow_up_increment content :
    transition FollowUp [FollowUpContent content] FollowUp
| complete finalContent :
    transition FollowUp [PhaseEnd FollowUpPhase finalContent] Completed
| raise_error q errorText :
    non_terminal q = true ->
    transition q [ErrorEvent errorText] Errored.

(** The events emitted along a run of the machine. *)
Inductive emits : ProducerState -> list StreamEvent -> ProducerState -> Prop :=
| emits_nothing q : emits q [] q
| emits_more q1 es q2 es' q3 :
    transition q1 es q2 -> emits q2 es' q3 -> emits q1 (es ++ es') q3.

Definition phase_name (ph : PhaseName) : string :=
  match ph with
  | RuleGenerationPhase => "rule-generation"
  | FollowUpPhase => "follow-up-message"
  end.

Definition blank (type : string) : RuleGenerationStreamChunk :=
  {| chunk_type := type; chunk_phase := None; chunk_content := None;
     chunk_finalContent := None; chunk_errorText := None;
     chunk_metadata := None |}.

(** The object an event is on the wire. *)
Definition wire (e : StreamEvent) : RuleGenerationStreamChunk :=
  match e with
  | PhaseStart ph md =>
      {| chunk_type := "phase-start"; chunk_phase := Some (phase_name ph);
         chunk_content := None; chunk_finalContent := None;
         chunk_errorText := None; chunk_metadata := md |}
  | RuleContent c =>
      {| chunk_type := "rule-content"; chunk_phase := None;
         chunk_content := Some c; chunk_finalContent := None;
         chunk_errorText := None; chunk_metadata := None |}
  | FollowUpContent c =>
      {| chunk_type := "follow-up-content"; chunk_phase := None;
         chunk_content := Some c; chunk_finalContent := None;
         chunk_errorText := None; chunk_metadata := None |}
  | PhaseEnd ph fc =>
      {| chunk_type := "phase-end"; chunk_phase := Some (phase_name ph);
         chunk_content := None; chunk_finalContent := fc;
         chunk_errorText := None; chunk_metadata := None |}
  | ErrorEvent t =>
      {| chunk_type := "error"; chunk_phase := None;
         chunk_content := None; chunk_finalContent := None;
         chunk_errorText := Some t; chunk_metadata := None |}
  end.

(** The machine read one event at a time; [Between] is the point inside
    [begin_follow_up], after its first event. *)
Inductive Cursor := At (q : ProducerState) | Between.

Definition accept (k : Cursor) (e : StreamEvent) : option Cursor :=
  match k, e with
  | At Idle, PhaseStart RuleGenerationPhase _ => Some (At RuleGeneration)
  | At RuleGeneration, RuleContent _ => Some (At RuleGeneration)
  | At RuleGeneration, PhaseEnd RuleGenerationPhase _ => Some Between
  | Between, PhaseStart FollowUpPhase _ => Some (At FollowUp)
  | At FollowUp, FollowUpContent _ => Some (At FollowUp)
  | At FollowUp, PhaseEnd FollowUpPhase _ => Some (At Completed)
  | At q, ErrorEvent _ => if non_terminal q then Some (At Errored) else None
  | _, _ => None
  end.

Fixpoint accepts (k : Cursor) (es : list StreamEvent) : option Cursor :=
  match es with
  | [] => Some k
  | e :: es' => k' ← accept k e; accepts k' es'
  end.

(** What the reducer's state shows at each point of the producer's
    run. *)
Definition agrees (k : Cursor) (s : RuleGenerationState) : Prop :=
  match k with
  | At RuleGeneration =>
      isStreamingRule s = true /\ isStreamingFollowUp s = false
      /\ currentPhase s = rule_generation
  | At FollowUp =>
      isStreamingRule s = false /\ isStreamingFollowUp s = true
      /\ currentPhase s = follow_up_message
  | At Idle | Between | At Completed | At Errored =>
      isStreamingRule s = false /\ isStreamingFollowUp s = false
  end.

End Producer.


(* ===================================================================== *)
(** ** Sample wire text for the examples *)
(* ===================================================================== *)

Module Sample.
Import JS RuleGeneration Producer.

Definition quote : string := String (ascii_of_nat 34) EmptyString.

Definition quoted (s : string) : string := quote +:+ s +:+ quote.

Definition field (key value : string) : string :=
  quoted key +:+ ":" +:+ value.

Fixpoint comma_separated (items : list string) : string :=
  match items with
  | [] => ""
  | [item] => item
  | item :: rest => item +:+ "," +:+ comma_separated rest
  end.

(** The JSON text of an object. *)
Definition object (fields : list string) : string :=
  "{" +:+ comma_separated fields +:+ "}".

(** The JSON text of a phased event (without metadata). *)
Definition text_of (e : StreamEvent) : string :=
  match e with
  | PhaseStart ph _ =>
      object [field "type" (quoted "phase-start");
              field "phase" (quoted (phase_name ph))]
  | RuleContent c =>
      object [field "type" (quoted "rule-content"); field "content" (quoted c)]
  | FollowUpContent c =>
      object [field "type" (quoted "follow-up-content");
              field "content" (quoted c)]
  | PhaseEnd ph fc =>
      object ([field "type" (quoted "phase-end");
               field "phase" (quoted (phase_name ph))]
              ++ match fc with
                 | Some c => [field "finalContent" (quoted c)]
                 | None => []
                 end)
  | ErrorEvent t =>
      object [field "type" (quoted "error"); field "errorText" (quoted t)]
  end.

(** The SSE line that carries an event. *)
Definition data_line (e : StreamEvent) : string := "data: " +:+ text_of e.

Definition sample_events : list StreamEvent :=
  [PhaseStart RuleGenerationPhase None; PhaseStart FollowUpPhase None;
   RuleContent "# Title"; RuleContent "abc"; RuleContent "def";
   FollowUpContent "All set!";
   PhaseEnd RuleGenerationPhase None; PhaseEnd RuleGenerationPhase (Some "");
   PhaseEnd RuleGenerationPhase (Some "# Title ## Done");
   PhaseEnd FollowUpPhase (Some "All set!");
   ErrorEvent "boom"].

(** A parser that knows the texts of [sample_events] and rejects every
    other text. *)
Definition sample_parse (jsonStr : string) : option RuleGenerationStreamChunk :=
  wire <$> List.find (fun e => String.eqb (text_of e) jsonStr) sample_events.

Definition sample_request : RuleGenerationRequest :=
  {| model := None; provider := None |}.

(** A successful response whose body yields [fragments]. *)
Definition response_with (fragments : list string) : Response :=
  {| ok := true; status := 200; statusText := "OK"; body := Some fragments |}.

Definition lf : string := String LF EmptyString.

Definition chunk_event (c : string) : ChatPanel.StreamingEvent :=
  {| ChatPanel.event := Some "chunk";
     ChatPanel.payload :=
       Some {| ChatPanel.id := None; ChatPanel.rule_type := None;
               ChatPanel.tech_stack := None; ChatPanel.filename := None;
               ChatPanel.schema_version := None;
               ChatPanel.payload_content := Some c;
               ChatPanel.message := None |} |}.

Definition bare_event (name : string) : ChatPanel.StreamingEvent :=
  {| ChatPanel.event := Some name; ChatPanel.payload := None |}.

Definition chunk_text (c : string) : string :=
  object [field "event" (quoted "chunk");
          field "payload" (object [field "content" (quoted c)])].

Definition bare_text (name : string) : string :=
  object [field "event" (quoted name)].

(** A parser for the panel that knows a few event texts. *)
Definition sample_parse_event (text : string) : option ChatPanel.StreamingEvent :=
  if String.eqb text (chunk_text "hi") then Some (chunk_event "hi")
  else if String.eqb text (chunk_text "there") then Some (chunk_event "there")
  else if String.eqb text (bare_text "meta") then Some (bare_event "meta")
  else if String.eqb text (bare_text "done") then Some (bare_event "done")
  else None.

(** An assistant message with one text part. *)
Definition assistant_message (i text : string) (st : ChatPanel.PartState)
  : ChatPanel.UIMessage :=
  {| ChatPanel.msg_id := i; ChatPanel.role := ChatPanel.assistant;
     ChatPanel.parts := Some [ChatPanel.TextUIPart text (Some st)];
     ChatPanel.content := None |}.

End Sample.

(* ===================================================================== *)
(** ** [useRuleGeneration]: the other functions of the hook *)
(* ===================================================================== *)

Module Session.
Import JS RuleGeneration.

(** [setRuleContent (content, ruleType = 'PROJECT_RULE', fileName)]
    (lines 225-242): an omitted [ruleType] takes the parameter default. *)
Definition setRuleContent (content : string) (type : option RuleType)
    (name : option string) (prev : RuleGenerationState) : RuleGenerationState :=
  {| isGenerating := isGenerating prev;
     isStreamingRule := isStreamingRule prev;
     isStreamingFollowUp := isStreamingFollowUp prev;
     currentPhase := completed;
     ruleContent := content;
     followUpContent := followUpContent prev;
     error := error prev;
     metadata :=
       Some {| ruleType := default PROJECT_RULE type;
               fileName := Some (or_else name "agent-generated-rule") |} |}.

(** The line carries the SSE prefix. *)
Definition has_prefix (line : string) : bool := startsWith line "data: ".

Definition is_rule_content (chunk : RuleGenerationStreamChunk) : bool :=
  String.eqb (chunk_type chunk) "rule-content".

Definition is_follow_up_content (chunk : RuleGenerationStreamChunk) : bool :=
  String.eqb (chunk_type chunk) "follow-up-content".

(** The content the [rule-content] chunks of a sequence carry, in order. *)
Definition rule_increments (chunks : list RuleGenerationStreamChunk) : string :=
  concat_text
    (map (fun chunk => default "" (chunk_content chunk))
       (List.filter is_rule_content chunks)).

Definition follow_up_increments (chunks : list RuleGenerationStreamChunk)
  : string :=
  concat_text
    (map (fun chunk => default "" (chunk_content chunk))
       (List.filter is_follow_up_content chunks)).

(** A [phase-end] with a final content that replaces the accumulated
    one. *)
Definition overrides (phase : string) (chunk : RuleGenerationStreamChunk)
  : bool :=
  String.eqb (chunk_type chunk) "phase-end"
  && bool_decide (chunk_phase chunk = Some phase)
  && truthy (chunk_finalContent chunk).

(** A [phase-start] of the rule-generation phase. *)
Definition starts_rule (chunk : RuleGenerationStreamChunk) : bool :=
  String.eqb (chunk_type chunk) "phase-start"
  && bool_decide (chunk_phase chunk = Some "rule-generation").

End Session.

(* ===================================================================== *)
(** ** [AIChatPanel]: mentions, sending and the rendering of messages *)
(* ===================================================================== *)

Module Chat.
Import JS ChatPanel.

Inductive FileKind := file | directory.

(** The [{ name, path, type }] objects of [handleFileDrop]. *)
Record MentionedFile := {
  name : string;
  path : string;
  type : FileKind;
}.

(** [handleFileDrop] (lines 522-534), on [mentionedFiles]. *)
Definition handleFileDrop (f : MentionedFile) (prev : list MentionedFile)
  : list MentionedFile :=
  if existsb (fun g => String.eqb (path g) (path f)) prev then prev
  else prev ++ [f].

(** [handleRemoveMention] (lines 518-520). *)
Definition handleRemoveMention (p : string) (prev : list MentionedFile)
  : list MentionedFile :=
  List.filter (fun f => negb (String.eqb (path f) p)) prev.

(** [handleDragEnd] of the page, as far as the mentions go: [over] is the
    id of the droppable the item was released on, [data] is
    [active.data.current]. *)
Definition handleDragEnd (over : option string) (data : option MentionedFile)
    (prev : list MentionedFile) : list MentionedFile :=
  match over, data with
  | Some target, Some f =>
      if String.eqb target "chat-input-droppable" then handleFileDrop f prev
      else prev
  | _, _ => prev
  end.

(** [status] of [useChat]. *)
Inductive ChatStatus := submitted | streaming_status | ready | failed.

(** The state [handleSend] works on, with the texts handed to
    [sendMessage] so far. *)
Record Composer := {
  input : string;
  optimisticMessages : list UIMessage;
  sent : list string;
}.

(** [handleSend] (lines 494-516), with [Date.now ()] answering [now]. *)
Definition handleSend (now : nat) (status : ChatStatus) (c : Composer)
  : Composer :=
  if String.eqb (trim (input c)) ""
     || match status with streaming_status => true | _ => false end
  then c
  else
    {| input := "";
       optimisticMessages :=
         optimisticMessages c
         ++ [{| msg_id := "optimistic-" +:+ show_nat now; role := user;
                parts := Some [TextUIPart (input c) None];
                content := None |}];
       sent := sent c ++ [input c] |}.

(** The [messages] memo (lines 272-274). *)
Definition messages (chatMessages optimistic : list UIMessage)
  : list UIMessage :=
  match optimistic with
  | [] => chatMessages
  | _ :: _ => optimistic
  end.

(** What the effect of lines 288-294 does to the optimistic messages
    when it fires. *)
Definition clear_optimistic (chatMessages optimistic : list UIMessage)
  : list UIMessage :=
  match optimistic, chatMessages with
  | _ :: _, _ :: _ => []
  | _, _ => optimistic
  end.

(** A rendered [MessageBubble]. *)
Inductive Bubble := MessageBubble (r : Role) (text : string).

Definition is_text (part : UIPart) : bool :=
  match part with
  | TextUIPart _ _ => true
  | OtherUIPart _ => false
  end.

(** What one message renders to (lines 566-627). *)
Definition render_message (eventOnly : gset string) (m : UIMessage)
  : list Bubble :=
  match role m with
  | user =>
      let firstTextPart := ps ← parts m; List.find is_text ps in
      [MessageBubble user
         (or_else (match firstTextPart with
                   | Some (TextUIPart t _) => Some t
                   | _ => None
                   end) "")]
  | assistant =>
      if bool_decide (msg_id m ∈ eventOnly) then []
      else match parts m with
           | Some ps =>
               flat_map (fun part =>
                           match part with
                           | TextUIPart t _ =>
                               [MessageBubble assistant (or_else (Some t) "")]
                           | OtherUIPart _ => []
                           end) ps
           | None => [MessageBubble assistant (or_else (content m) "")]
           end
  | system => []
  end.

(** All the events of a batch handled by the handler of one render. *)
Definition handle_all (r : Render) (es : list StreamingEvent) (p : Panel)
  : Panel :=
  fold_left (fun p e => handleStreamingEvent r e p) es p.

Definition is_chunk (e : StreamingEvent) : Prop := event e = Some "chunk".

Definition is_reserved (e : StreamingEvent) : Prop :=
  event e = Some "progress" \/ event e = Some "file".

(** The calls a generating render makes for a batch of chunks. *)
Definition updates (r : Render) (es : list StreamingEvent) : list Callback :=
  map (fun e => onRuleGenerationUpdate (render_ruleContent r +:+ content_of e))
    es.

(** A parser for the panel that knows the text of a [progress] event
    only. *)
Definition progress_parse (text : string) : option StreamingEvent :=
  if String.eqb text (Sample.bare_text "progress")
  then Some (Sample.bare_event "progress") else None.

End Chat.

(* ===================================================================== *)
(** ** [RepositoryDetailPage]: the callbacks the panel calls *)
(* ===================================================================== *)

Module Page.
Import JS ChatPanel.

(** The state of the page behind the rules panel. *)
Record PageState := {
  isGeneratingRules : bool;
  streamingRuleContent : string;
  ruleMeta : option Payload;
  clarifyMessage : option Payload;
  showRightPanel : bool;
}.

(** [handleRuleGenerationStart] *)
Definition handleRuleGenerationStart (meta : Payload) (s : PageState)
  : PageState :=
  {| isGeneratingRules := true; streamingRuleContent := "";
     ruleMeta := Some meta; clarifyMessage := clarifyMessage s;
     showRightPanel := true |}.

(** [handleRuleGenerationUpdate] *)
Definition handleRuleGenerationUpdate (text : string) (s : PageState)
  : PageState :=
  {| isGeneratingRules := isGeneratingRules s; streamingRuleContent := text;
     ruleMeta := ruleMeta s; clarifyMessage := clarifyMessage s;
     showRightPanel := showRightPanel s |}.

(** [handleRuleGenerationEnd] *)
Definition handleRuleGenerationEnd (s : PageState) : PageState :=
  {| isGeneratingRules := false;
     streamingRuleContent := streamingRuleContent s;
     ruleMeta := ruleMeta s; clarifyMessage := clarifyMessage s;
     showRightPanel := showRightPanel s |}.

(** [handleClarify] *)
Definition handleClarify (clarify : Payload) (s : PageState) : PageState :=
  {| isGeneratingRules := isGeneratingRules s; streamingRuleContent := "";
     ruleMeta := None; clarifyMessage := Some clarify;
     showRightPanel := showRightPanel s |}.

(** The page's handler for each prop of the panel. *)
Definition deliver (c : Callback) (s : PageState) : PageState :=
  match c with
  | onRuleGenerationStart meta => handleRuleGenerationStart meta s
  | onRuleGenerationUpdate text => handleRuleGenerationUpdate text s
  | onRuleGenerationEnd => handleRuleGenerationEnd s
  | onClarify clarify => handleClarify clarify s
  end.

Definition deliver_all (cs : list Callback) (s : PageState) : PageState :=
  fold_left (fun s c => deliver c s) cs s.

(** [handleResetSession]: the panel's [resetSession] (which calls
    [onRuleGenerationEnd]), then the clarify message is cleared. *)
Definition handleResetSession (p : Panel) (s : PageState) : Panel * PageState :=
  let s := handleRuleGenerationEnd s in
  (resetSession p,
   {| isGeneratingRules := isGeneratingRules s;
      streamingRuleContent := streamingRuleContent s;
      ruleMeta := ruleMeta s; clarifyMessage := None;
      showRightPanel := showRightPanel s |}).

(** [field.replace ('_', ' ')]: the first underscore becomes a space. *)
Fixpoint replace_underscore (field : string) : string :=
  match field with
  | EmptyString => EmptyString
  | String c rest =>
      if Ascii.eqb c "_" then String " " rest
      else String c (replace_underscore rest)
  end.

(** What the rules panel shows (the nested conditionals of the [aside],
    lines 328-400): the clarification with its message and the list of
    required fields, the rule while it is generated, the generated rule,
    or the placeholder; [RenderThrows] when evaluating the JSX throws. *)
Inductive RulesView :=
| Collapsed
| ClarificationNeeded (message : option string) (fields : list string)
| RenderThrows
| Generating (text : string)
| GeneratedRule (text : string)
| Placeholder.

Section RulesPanel.

(** The [required_fields] of a clarify payload as the clarification branch
    reads them (lines 335-346).  The declared type of the event payload
    has no such property (the panel passes [event.payload as
    ClarifyPayload]), so it is read off the parsed object: [Some fields]
    when the property is the array of strings that [ClarifyPayload]
    declares, [None] when it is absent or null, in which case
    [clarifyMessage.required_fields.length] throws. *)
Variable required_fields : Payload -> option (list string).

Definition rules_view (s : PageState) : RulesView :=
  if negb (showRightPanel s) then Collapsed
  else match clarifyMessage s with
       | Some clarify =>
           match required_fields clarify with
           | Some fields =>
               ClarificationNeeded (message clarify)
                 (map replace_underscore fields)
           | None => RenderThrows
           end
       | None =>
           if isGeneratingRules s then
             Generating (or_else (Some (streamingRuleContent s)) "Generating...")
           else if truthy (Some (streamingRuleContent s)) then
             GeneratedRule (streamingRuleContent s)
           else Placeholder
       end.

End RulesPanel.

(** Whether the view shows rule content or the placeholder for it. *)
Definition shows_rule (v : RulesView) : bool :=
  match v with
  | Generating _ | GeneratedRule _ | Placeholder => true
  | _ => false
  end.

(** A clarification payload and the page as it is first shown with the
    rules panel open, for the examples. *)
Definition clarify_payload : Payload :=
  {| id := None; rule_type := None; tech_stack := None; filename := None;
     schema_version := None; payload_content := None;
     message := Some "Which framework?" |}.

Definition blank_page : PageState :=
  {| isGeneratingRules := false; streamingRuleContent := "";
     ruleMeta := None; clarifyMessage := None;
     showRightPanel := true |}.

End Page.

(* ===================================================================== *)
(** ** The backend: model configuration, [AIService] and [AIController] *)
(* ===================================================================== *)

Module Backend.
Import JS.

(** JSON numbers ([temperature], [maxTokens]) are rationals. *)
Abbreviation number := QArith_base.Q.

(** An optional property is present. *)
Definition defined {A} (x : option A) : bool :=
  match x with
  | Some _ => true
  | None => false
  end.

(** [if (n)] on a number: zero is falsy. *)
Definition nonzero (n : number) : bool :=
  negb (QArith_base.Qeq_bool n (QArith_base.Qmake 0 1)).

(** [enum AIProvider] *)
Inductive AIProvider := GROQ.

Record ProviderConfig := {
  baseURL : option string;
  defaultModel : string;
  models : list string;
}.

Definition PROVIDER_CONFIGS (provider : AIProvider) : ProviderConfig :=
  match provider with
  | GROQ =>
      {| baseURL := None;
         defaultModel := "llama-3.3-70b-versatile";
         models :=
           ["meta-llama/llama-4-scout-17b-16e-instruct";
            "meta-llama/llama-4-maverick-17b-128e-instruct";
            "llama-3.3-70b-versatile";
            "llama-3.1-70b-versatile";
            "llama-3.1-8b-instant";
            "llama3-70b-8192";
            "llama3-8b-8192";
            "mixtral-8x7b-32768";
            "gemma2-9b-it";
            "gemma-7b-it";
            "qwen/qwen3-32b";
            "qwen-qwq-32b";
            "deepseek-r1-distill-llama-70b";
            "deepseek-r1-distill-qwen-32b";
            "qwen-2.5-32b";
            "openai/gpt-oss-20b";
            "openai/gpt-oss-120b";
            "moonshotai/kimi-k2-instruct";
            "distil-whisper-large-v3-en";
            "whisper-large-v3";
            "whisper-large-v3-turbo";
            "meta-llama/llama-guard-4-12b";
            "meta-llama/llama-prompt-guard-2-22m";
            "meta-llama/llama-prompt-guard-2-86m";
            "llama-guard-3-8b"] |}
  end.

(** The parameter default [provider = AIProvider.GROQ]. *)
Definition provider_or_default (provider : option AIProvider) : AIProvider :=
  default GROQ provider.

Definition getAvailableModels (provider : option AIProvider) : list string :=
  models (PROVIDER_CONFIGS (provider_or_default provider)).

Definition getDefaultModel (provider : option AIProvider) : string :=
  defaultModel (PROVIDER_CONFIGS (provider_or_default provider)).

(** [PROVIDER_CONFIGS[provider].models.includes (model)] *)
Definition isModelSupported (model : string) (provider : option AIProvider)
  : bool :=
  existsb (String.eqb model) (getAvailableModels provider).

(** The model instance [groq (modelName)] returns. *)
Inductive LanguageModel := groq (modelName : string).

(** [createAIModel]: the [default] case of its [switch] is not reached by
    a value of the enum. *)
Definition createAIModel (provider : option AIProvider) (model : option string)
  : LanguageModel :=
  let config := PROVIDER_CONFIGS (provider_or_default provider) in
  let modelName := or_else model (defaultModel config) in
  match provider_or_default provider with
  | GROQ => groq modelName
  end.

Inductive ReasoningFormat := parsed | hidden | raw.
Inductive ReasoningEffort := low | medium | high | no_effort | default_effort.
Inductive ServiceTier := on_demand | flex | auto_tier.

(** The [groqOptions] object. *)
Record GroqOptions := {
  reasoningFormat : option ReasoningFormat;
  reasoningEffort : option ReasoningEffort;
  parallelToolCalls : option bool;
  user : option string;
  serviceTier : option ServiceTier;
}.

Section WithMessages.

(** [ModelMessage] of the AI SDK. *)
Variable ModelMessage : Type.

(** The [options] of [generateStream]. *)
Record StreamRequest := {
  messages : list ModelMessage;
  system : option string;
  model : option string;
  provider : option AIProvider;
  temperature : option number;
  maxTokens : option number;
  groq_hints : GroqOptions;
}.

(** The argument [generateStream] hands to [streamText]. *)
Record StreamOptions := {
  so_model : LanguageModel;
  so_messages : list ModelMessage;
  so_system : option string;
  so_temperature : option number;
  so_maxTokens : option number;
  providerOptions : option GroqOptions;
}.

(** The [groqOptions] built from the hints: a property is set when its
    hint is truthy ([parallelToolCalls]: when it is not undefined). *)
Definition groqOptions_of (h : GroqOptions) : GroqOptions :=
  {| reasoningFormat := reasoningFormat h;
     reasoningEffort := reasoningEffort h;
     parallelToolCalls := parallelToolCalls h;
     user := if truthy (user h) then user h else None;
     serviceTier := serviceTier h |}.

(** [Object.keys (groqOptions).length > 0] *)
Definition has_keys (g : GroqOptions) : bool :=
  defined (reasoningFormat g) || defined (reasoningEffort g)
  || defined (parallelToolCalls g) || defined (user g)
  || defined (serviceTier g).

(** [generateStream] (lines 95-147 of the service): the argument of
    [streamText]. *)
Definition generateStream (o : StreamRequest) : StreamOptions :=
  {| so_model := createAIModel (provider o) (model o);
     so_messages := messages o;
     so_system := system o;
     so_temperature := temperature o;
     so_maxTokens :=
       match maxTokens o with
       | Some n => if nonzero n then Some n else None
       | None => None
       end;
     providerOptions :=
       match provider o with
       | Some GROQ =>
           let groqOptions := groqOptions_of (groq_hints o) in
           if has_keys groqOptions then Some groqOptions else None
       | None => None
       end |}.

(** [body.message] when it is truthy: a string, or another value with
    the text [JSON.stringify] gives for it. *)
Inductive MessageValue :=
| StringValue (s : string)
| StructuredValue (stringified : string).

(** A request body that is an object: [body_messages] is [body.messages]
    when that is an array, [body_message] is [body.message] when it is
    truthy. *)
Record ChatRequestBody := {
  body_messages : option (list ChatPanel.UIMessage);
  body_message : option MessageValue;
  body_model : option string;
  body_provider : option AIProvider;
  body_temperature : option number;
  body_maxTokens : option number;
}.

(** The parsed request body: an array, an object, or anything else
    (null, a string, a number, a boolean). *)
Inductive Body :=
| ArrayBody (messages : list ChatPanel.UIMessage)
| ObjectBody (o : ChatRequestBody)
| OtherBody.

(** What the endpoint answers: [res.status (...).send (...)], or the
    stream of [streamText] piped to the response. *)
Inductive Reply :=
| Sent (status : nat) (text : string)
| Piped (options : StreamOptions).

(** What the first [try] block of [chat] extracts from the body. *)
Record Extracted := {
  ex_messages : list ChatPanel.UIMessage;
  ex_model : option string;
  ex_provider : option AIProvider;
  ex_temperature : option number;
  ex_maxTokens : option number;
}.

(** The first [try] block of [chat] (lines 70-106 of the controller):
    [None] when it throws. *)
Definition extract (body : Body) : option Extracted :=
  match body with
  | ArrayBody ms =>
      Some {| ex_messages := ms; ex_model := None; ex_provider := None;
              ex_temperature := None; ex_maxTokens := None |}
  | ObjectBody o =>
      let with_messages ms :=
        Some {| ex_messages := ms; ex_model := body_model o;
                ex_provider := body_provider o;
                ex_temperature := body_temperature o;
                ex_maxTokens := body_maxTokens o |} in
      match body_messages o, body_message o with
      | Some ms, _ => with_messages ms
      | None, Some (StringValue (String c s)) =>
          with_messages
            [{| ChatPanel.msg_id := "user-msg"; ChatPanel.role := ChatPanel.user;
                ChatPanel.parts :=
                  Some [ChatPanel.TextUIPart (String c s) None];
                ChatPanel.content := None |}]
      | None, Some (StructuredValue text) =>
          with_messages
            [{| ChatPanel.msg_id := "user-msg"; ChatPanel.role := ChatPanel.user;
                ChatPanel.parts := Some [ChatPanel.TextUIPart text None];
                ChatPanel.content := None |}]
      | None, _ => None
      end
  | OtherBody => None
  end.

(** [lastMessage.parts && lastMessage.parts.length > 0] *)
Definition hasParts (m : ChatPanel.UIMessage) : bool :=
  match ChatPanel.parts m with
  | Some (_ :: _) => true
  | _ => false
  end.

(** [temperature || 0.3] *)
Definition temperature_or_default (t : option number) : number :=
  match t with
  | Some n => if nonzero n then n else QArith_base.Qmake 3 10
  | None => QArith_base.Qmake 3 10
  end.

(** [loadTemplate ('chat')] and [convertToModelMessages]: [None] when
    the call throws. *)
Variable loadTemplate : option string.
Variable convertToModelMessages :
  list ChatPanel.UIMessage -> option (list ModelMessage).

(** The [chat] endpoint (lines 62-155 of the controller).  The call of
    the model and the piping of its stream are taken to succeed. *)
Definition chat (body : Body) : Reply :=
  match extract body with
  | None => Sent 400 "Invalid request body format"
  | Some e =>
      match last (ex_messages e) with
      | None => Sent 400 "Last message must be from user"
      | Some lastMessage =>
          match ChatPanel.role lastMessage with
          | ChatPanel.user =>
              if negb (truthy (ChatPanel.content lastMessage))
                 && negb (hasParts lastMessage)
              then Sent 400 "Last message must have content"
              else
                match loadTemplate,
                      convertToModelMessages (ex_messages e) with
                | Some systemPrompt, Some modelMessages =>
                    Piped
                      (generateStream
                         {| messages := modelMessages;
                            system := Some systemPrompt;
                            model := ex_model e;
                            provider := ex_provider e;
                            temperature :=
                              Some (temperature_or_default (ex_temperature e));
                            maxTokens := ex_maxTokens e;
                            groq_hints :=
                              {| reasoningFormat := None;
                                 reasoningEffort := None;
                                 parallelToolCalls := Some true;
                                 user := None;
                                 serviceTier := Some flex |} |})
                | _, _ => Sent 500 "Internal server error"
                end
          | _ => Sent 400 "Last message must be from user"
          end
      end
  end.

End WithMessages.

End Backend.

(* ===================================================================== *)
(** ** [FileTreePanel]: the retry policy and the toggling of folders *)
(* ===================================================================== *)

Module FileTree.
Import JS.

Local Open Scope N_scope.

Definition MAX_RETRIES : N := 3.

(** The [retry] option of the file tree query: [statusCode] is
    [error?.statusCode]. *)
Definition retry (failureCount : N) (statusCode : option N) : bool :=
  match statusCode with
  | Some code => if N.eqb code 401 then false
                 else N.ltb failureCount MAX_RETRIES
  | None => N.ltb failureCount MAX_RETRIES
  end.

(** The [retryDelay] option: [Math.min (1000 * 2 ** attemptIndex, 30000)],
    in milliseconds. *)
Definition retryDelay (attemptIndex : N) : N :=
  N.min (1000 * 2 ^ attemptIndex) 30000.

#[local] Unset Elimination Schemes.

(** [FileNode]: [children] and [isExpanded] are optional. *)
Inductive FileNode :=
| Node (name path : string) (type : Chat.FileKind)
       (children : option (list FileNode)) (isExpanded : option bool).

#[local] Set Elimination Schemes.

Definition node_path (n : FileNode) : string :=
  match n with Node _ p _ _ _ => p end.

Definition node_children (n : FileNode) : option (list FileNode) :=
  match n with Node _ _ _ c _ => c end.

Definition node_expanded (n : FileNode) : option bool :=
  match n with Node _ _ _ _ e => e end.

(** The function mapped by [toggleNode] (lines 291-301): a node with the
    path is flipped ([!undefined] is true) and its children are left
    alone; another node has its children searched. *)
Fixpoint toggle (p : string) (n : FileNode) : FileNode :=
  match n with
  | Node name np ty children isExpanded =>
      if String.eqb np p then
        Node name np ty children (Some (negb (default false isExpanded)))
      else
        match children with
        | Some cs => Node name np ty (Some (map (toggle p) cs)) isExpanded
        | None => n
        end
  end.

Definition toggleNode (p : string) (nodes : list FileNode) : list FileNode :=
  map (toggle p) nodes.

(** The updater [handleToggle] hands to [setQueryData]. *)
Definition handleToggle (p : string) (oldData : option (list FileNode))
  : option (list FileNode) :=
  match oldData with
  | None => None
  | Some nodes => Some (toggleNode p nodes)
  end.

(** The tree without the expansion flags. *)
Fixpoint shape (n : FileNode) : FileNode :=
  match n with
  | Node name np ty children _ =>
      Node name np ty (option_map (map shape) children) None
  end.

(** Every node of the tree carries an expansion flag. *)
Fixpoint flagged (n : FileNode) : bool :=
  match n with
  | Node _ _ _ children isExpanded =>
      Backend.defined isExpanded
      && match children with
         | Some cs => forallb flagged cs
         | None => true
         end
  end.

(** The paths of the nodes of the tree. *)
Fixpoint paths (n : FileNode) : list string :=
  match n with
  | Node _ np _ children _ =>
      np :: match children with
            | Some cs => flat_map paths cs
            | None => []
            end
  end.

End FileTree.

(* ===================================================================== *)
(** ** Facts about the string primitives and the chunk decoder *)
(* ===================================================================== *)

Module DecoderFacts.
Import JS RuleGeneration.

Lemma append_empty_r (s : string) : s +:+ "" = s.
Proof. induction s as [|c s IH]; simpl; [reflexivity | now rewrite IH]. Qed.

Lemma append_assoc (a b c : string) : (a +:+ b) +:+ c = a +:+ b +:+ c.
Proof. induction a as [|x a IH]; simpl; [reflexivity | now rewrite IH]. Qed.

Lemma concat_text_app (xs ys : list string) :
  concat_text (xs ++ ys) = concat_text xs +:+ concat_text ys.
Proof.
  induction xs as [|x xs IH]; simpl; [reflexivity |].
  now rewrite IH, append_assoc.
Qed.

Lemma no_lf_app (a b : string) : no_lf (a +:+ b) = no_lf a && no_lf b.
Proof.
  induction a as [|x a IH]; simpl; [reflexivity |].
  now rewrite IH, andb_assoc.
Qed.

Lemma or_else_some_empty (s : string) : or_else (Some s) "" = s.
Proof. now destruct s. Qed.

(** [split] yields the complete lines followed by the unterminated rest. *)
Lemma split_lf_cut (s : string) : split_lf s = fst (cut s) ++ [snd (cut s)].
Proof.
  induction s as [|c s IH]; simpl; [reflexivity |].
  destruct (cut s) as [lines rest]; simpl in IH.
  destruct (Ascii.eqb c LF); simpl.
  - now rewrite IH.
  - rewrite IH. now destruct lines.
Qed.

Lemma pop_split_lf (s : string) :
  pop (split_lf s) = (Some (snd (cut s)), fst (cut s)).
Proof.
  unfold pop. rewrite split_lf_cut.
  now rewrite last_snoc, removelast_last.
Qed.

(** One read of the decoder cuts the buffer extended by the fragment. *)
Lemma decode_cut (buffer value : string) :
  decode buffer value = cut (buffer +:+ value).
Proof.
  unfold decode. rewrite pop_split_lf, or_else_some_empty.
  now destruct (cut (buffer +:+ value)).
Qed.

Lemma cut_no_lf_rest (s : string) : no_lf (snd (cut s)) = true.
Proof.
  induction s as [|c s IH]; simpl; [reflexivity |].
  destruct (cut s) as [lines rest]; simpl in IH.
  destruct (Ascii.eqb c LF) eqn:E; simpl; [assumption |].
  destruct lines; simpl; [now rewrite E | assumption].
Qed.

Lemma cut_no_lf_lines (s : string) :
  Forall (fun line => no_lf line = true) (fst (cut s)).
Proof.
  induction s as [|c s IH]; simpl; [constructor |].
  pose proof (cut_no_lf_rest s) as Hr.
  destruct (cut s) as [lines rest]; simpl in IH, Hr.
  destruct (Ascii.eqb c LF) eqn:E; simpl.
  - constructor; [reflexivity | assumption].
  - destruct lines as [|l ls]; simpl; [constructor |].
    inversion IH; subst. constructor; [simpl; now rewrite E | assumption].
Qed.

(** Without a line feed there is no complete line. *)
Lemma cut_no_lf (s : string) : no_lf s = true -> cut s = ([], s).
Proof.
  induction s as [|c s IH]; simpl; [reflexivity |].
  intros H. apply andb_prop in H as [Hc Hs].
  rewrite (IH Hs). apply negb_true_iff in Hc. now rewrite Hc.
Qed.

(** Cutting a text that arrives in two pieces: the rest of the first
    piece is carried into the second. *)
Lemma cut_app (a b : string) :
  cut (a +:+ b) =
  (fst (cut a) ++ fst (cut (snd (cut a) +:+ b)), snd (cut (snd (cut a) +:+ b))).
Proof.
  induction a as [|c a IH]; simpl.
  - now destruct (cut b).
  - rewrite IH. destruct (cut a) as [la ra]; simpl.
    destruct (Ascii.eqb c LF) eqn:E; simpl; [reflexivity |].
    destruct la as [|l la]; simpl; [| reflexivity].
    rewrite E. now destruct (cut (ra +:+ b)) as [[|l' lb] rb].
Qed.

(** The lines, each with its line feed, followed by the rest give the
    text back. *)
Lemma cut_join (s : string) :
  concat_text (map terminated (fst (cut s))) +:+ snd (cut s) = s.
Proof.
  induction s as [|c s IH]; simpl; [reflexivity |].
  destruct (cut s) as [lines rest]; simpl in IH.
  destruct (Ascii.eqb c LF) eqn:E; simpl.
  - apply Ascii.eqb_eq in E. subst c. now rewrite IH.
  - destruct lines as [|l ls]; unfold terminated in *; simpl in *;
      now rewrite IH.
Qed.

(** The text with a last line: cutting [pre], then one more terminated
    line. *)
Lemma cut_terminated (pre line : string) :
  no_lf line = true ->
  cut (pre +:+ terminated line) =
  (fst (cut pre) ++ [snd (cut pre) +:+ line], "").
Proof.
  intros Hl. rewrite cut_app.
  assert (H : cut (snd (cut pre) +:+ terminated line)
              = ([snd (cut pre) +:+ line], "")).
  { pose proof (cut_no_lf_rest pre) as Hr.
    generalize dependent (snd (cut pre)). intros r Hr.
    induction r as [|c r IH]; simpl in *.
    - induction line as [|c line IHl]; simpl in *; [reflexivity |].
      apply andb_prop in Hl as [Hc Hl]. apply negb_true_iff in Hc.
      unfold terminated in IHl. now rewrite (IHl Hl), Hc.
    - apply andb_prop in Hr as [Hc Hr]. apply negb_true_iff in Hc.
      now rewrite (IH Hr), Hc. }
  now rewrite H.
Qed.

(** A line that starts with the SSE prefix is not blank, so the test
    [line.trim() === ''] never decides what the [for] body does with such
    a line. *)
Lemma data_line_not_blank (line : string) :
  startsWith line "data: " = true -> String.eqb (trim line) "" = false.
Proof.
  destruct line as [|c line]; [discriminate |].
  cbn [startsWith].
  destruct (Ascii.eqb "d" c) eqn:E; [| intros H; discriminate H].
  apply Ascii.eqb_eq in E. subst c. intros _.
  assert (Hs : trim_start (String "d" line) = String "d" line)
    by (destruct line as [|b [|c line]]; reflexivity).
  unfold trim. rewrite Hs. cbn [trim_end]. unfold all_space. now rewrite Hs.
Qed.

(** The decoder over a whole stream cuts the text of the stream. *)
Lemma decoded_cut (fragments : list string) (buffer : string) :
  no_lf buffer = true ->
  decoded fragments buffer = cut (buffer +:+ concat_text fragments).
Proof.
  revert buffer. induction fragments as [|value rest IH]; intros buffer Hb.
  - cbn. rewrite append_empty_r. symmetry. now apply cut_no_lf.
  - change (concat_text (value :: rest)) with (value +:+ concat_text rest).
    cbn [decoded]. rewrite decode_cut.
    pose proof (cut_no_lf_rest (buffer +:+ value)) as Hr.
    rewrite <- append_assoc, (cut_app (buffer +:+ value)).
    destruct (cut (buffer +:+ value)) as [lines buffer']; simpl in *.
    rewrite (IH buffer' Hr).
    now destruct (cut (buffer' +:+ concat_text rest)).
Qed.

End DecoderFacts.

(* ===================================================================== *)
(** ** Facts about the read loop of [generateRule] *)
(* ===================================================================== *)

Module LoopFacts.
Import JS RuleGeneration DecoderFacts.

Lemma with_buffer_same (l : Loop) : with_buffer l (buffer l) = l.
Proof. now destruct l. Qed.

Lemma with_buffer_twice (l : Loop) (b b' : string) :
  with_buffer (with_buffer l b) b' = with_buffer l b'.
Proof. reflexivity. Qed.

(** The [switch] never touches [buffer]. *)
Lemma apply_chunk_with_buffer chunk l b :
  apply_chunk chunk (with_buffer l b) = with_buffer (apply_chunk chunk l) b.
Proof.
  unfold apply_chunk, switch_chunk.
  repeat (destruct (String.eqb _ _); [simpl; try reflexivity |]);
    try reflexivity.
  - unfold phase_start. repeat case_decide; reflexivity.
  - unfold rule_content. now destruct (truthy _).
  - unfold follow_up_content. now destruct (truthy _).
  - unfold phase_end. repeat case_decide; reflexivity.
Qed.

Lemma apply_chunks_app cs cs' l :
  apply_chunks (cs ++ cs') l = apply_chunks cs' (apply_chunks cs l).
Proof. apply fold_left_app. Qed.

Section ReadLoopFacts.

Variable JSON_parse : string -> option RuleGenerationStreamChunk.

(** Nothing thrown inside the [try] block leaves it. *)
Lemma try_chunk_normal jsonStr l : snd (try_chunk JSON_parse jsonStr l) = Normal.
Proof.
  unfold try_chunk. destruct (JSON_parse jsonStr) as [chunk|]; [| reflexivity].
  now destruct (switch_chunk chunk l) as [l' [|m]].
Qed.

Lemma for_line_normal line l : snd (for_line JSON_parse line l) = Normal.
Proof.
  unfold for_line. destruct (String.eqb _ _); [reflexivity |].
  destruct (startsWith _ _); [apply try_chunk_normal | reflexivity].
Qed.

(** The [for] loop always runs to its end. *)
Lemma for_lines_run lines l :
  for_lines JSON_parse lines l = (run_lines JSON_parse lines l, Normal).
Proof.
  revert l. induction lines as [|line rest IH]; intros l; [reflexivity |].
  simpl. pose proof (for_line_normal line l) as Hn.
  destruct (for_line JSON_parse line l) as [l' c]. simpl in Hn. subst c.
  apply IH.
Qed.

(** One line applies the chunk it carries, if it carries one. *)
Lemma for_line_chunk line l :
  fst (for_line JSON_parse line l) =
  match chunk_of_line JSON_parse line with
  | Some chunk => apply_chunk chunk l
  | None => l
  end.
Proof.
  unfold for_line, chunk_of_line, try_chunk, apply_chunk.
  destruct (String.eqb _ _); [reflexivity |].
  destruct (startsWith _ _); [| reflexivity].
  destruct (JSON_parse _) as [chunk|]; [| reflexivity].
  now destruct (switch_chunk chunk l) as [l' [|m]].
Qed.

Lemma run_lines_chunks lines l :
  run_lines JSON_parse lines l
  = apply_chunks (chunks_of_lines JSON_parse lines) l.
Proof.
  revert l. induction lines as [|line rest IH]; intros l; [reflexivity |].
  unfold run_lines, chunks_of_lines in *. simpl. rewrite for_line_chunk.
  destruct (chunk_of_line JSON_parse line); simpl; apply IH.
Qed.

Lemma run_lines_app lines lines' l :
  run_lines JSON_parse (lines ++ lines') l
  = run_lines JSON_parse lines' (run_lines JSON_parse lines l).
Proof. apply fold_left_app. Qed.

Lemma run_lines_with_buffer lines l b :
  run_lines JSON_parse lines (with_buffer l b)
  = with_buffer (run_lines JSON_parse lines l) b.
Proof.
  revert l. induction lines as [|line rest IH]; intros l; [reflexivity |].
  unfold run_lines in *. simpl. rewrite !for_line_chunk.
  destruct (chunk_of_line JSON_parse line) as [chunk|]; [| apply IH].
  rewrite apply_chunk_with_buffer. apply IH.
Qed.

(** The read loop runs the [for] body over the decoded lines, in order;
    what is left of the text stays in [buffer]. *)
Lemma read_loop_decoded fragments l :
  read_loop JSON_parse fragments l =
  (with_buffer (run_lines JSON_parse (fst (decoded fragments (buffer l))) l)
     (snd (decoded fragments (buffer l))), Normal).
Proof.
  revert l. induction fragments as [|value rest IH]; intros l.
  - simpl. now rewrite with_buffer_same.
  - cbn [read_loop decoded].
    destruct (decode (buffer l) value) as [lines buffer'].
    rewrite for_lines_run, IH, run_lines_with_buffer.
    cbn [buffer with_buffer].
    destruct (decoded rest buffer') as [more final]. cbn [fst snd].
    now rewrite run_lines_app, run_lines_with_buffer.
Qed.

(** With a successful response and a body, the promise resolves, with
    the result built from the chunks the stream delivered. *)
Lemma generateRule_resolves request now response prev fragments :
  ok response = true ->
  body response = Some fragments ->
  generateRule JSON_parse request now response prev =
  (state (apply_chunks (observed JSON_parse fragments)
            (start_loop (on_entry prev))),
   Resolved (result_of request now
               (apply_chunks (observed JSON_parse fragments)
                  (start_loop (on_entry prev))))).
Proof.
  intros Hok Hbody. unfold generateRule. rewrite Hok, Hbody. simpl.
  rewrite read_loop_decoded. unfold observed. simpl.
  now rewrite run_lines_chunks.
Qed.

End ReadLoopFacts.

(** The accumulators and the state stay in step. *)
Lemma apply_chunk_coherent chunk l : coherent l -> coherent (apply_chunk chunk l).
Proof.
  intros [Hr Hf]. unfold apply_chunk, switch_chunk.
  repeat (destruct (String.eqb _ _); [simpl |]); try (now split).
  - unfold phase_start. repeat case_decide; now split.
  - unfold rule_content. destruct (truthy _); now split.
  - unfold follow_up_content. destruct (truthy _); now split.
  - unfold phase_end. repeat case_decide; now split.
Qed.

Lemma apply_chunks_coherent chunks l :
  coherent l -> coherent (apply_chunks chunks l).
Proof.
  revert l. induction chunks as [|c cs IH]; intros l H; [assumption |].
  apply IH. now apply apply_chunk_coherent.
Qed.

(** A chunk that is not terminal leaves [isGenerating] and [error] as
    they are. *)
Lemma apply_chunk_not_terminal chunk l :
  terminal chunk = false ->
  isGenerating (state (apply_chunk chunk l)) = isGenerating (state l)
  /\ error (state (apply_chunk chunk l)) = error (state l).
Proof.
  unfold terminal, apply_chunk, switch_chunk. intros Ht.
  destruct (String.eqb (chunk_type chunk) "phase-start") eqn:E1.
  { simpl. unfold phase_start. repeat case_decide; now split. }
  destruct (String.eqb (chunk_type chunk) "rule-content") eqn:E2.
  { simpl. unfold rule_content. destruct (truthy _); now split. }
  destruct (String.eqb (chunk_type chunk) "follow-up-content") eqn:E3.
  { simpl. unfold follow_up_content. destruct (truthy _); now split. }
  destruct (String.eqb (chunk_type chunk) "error") eqn:E5.
  { apply String.eqb_eq in E5. rewrite E5 in Ht. discriminate. }
  destruct (String.eqb (chunk_type chunk) "phase-end") eqn:E4; [| now split].
  simpl in Ht. apply bool_decide_eq_false in Ht.
  simpl. unfold phase_end.
  destruct (decide (chunk_phase chunk = Some "rule-generation"));
    [now split |].
  destruct (decide (chunk_phase chunk = Some "follow-up-message"));
    [contradiction | now split].
Qed.

Lemma apply_chunks_not_terminal chunks l :
  forallb (fun chunk => negb (terminal chunk)) chunks = true ->
  isGenerating (state (apply_chunks chunks l)) = isGenerating (state l)
  /\ error (state (apply_chunks chunks l)) = error (state l).
Proof.
  revert l. induction chunks as [|c cs IH]; intros l H; [now split |].
  simpl in H. apply andb_prop in H as [Hc Hcs].
  apply negb_true_iff in Hc.
  destruct (apply_chunk_not_terminal c l Hc) as [Hg He].
  destruct (IH (apply_chunk c l) Hcs) as [Hg' He'].
  simpl. unfold apply_chunks in *. now rewrite Hg', He'.
Qed.

(** The decoder emits the given lines when the text consists of them,
    each terminated by a line feed. *)
Lemma cut_lines (lines : list string) :
  Forall (fun line => no_lf line = true) lines ->
  cut (concat_text (map terminated lines)) = (lines, "").
Proof.
  induction 1 as [|line rest Hl _ IH]; [reflexivity |].
  change (concat_text (map terminated (line :: rest)))
    with (terminated line +:+ concat_text (map terminated rest)).
  rewrite cut_app.
  pose proof (cut_terminated "" line Hl) as Hc. simpl in Hc.
  rewrite Hc. cbn [fst snd]. simpl (String.append "" _). now rewrite IH.
Qed.

End LoopFacts.

(* ===================================================================== *)
(** ** The read loop and the reducer of [generateRule] *)
(* ===================================================================== *)

Module Stream.
Import JS RuleGeneration Producer Sample DecoderFacts LoopFacts.

(** The first test of the specification: a line split over two reads is
    emitted once, whole. *)
Example line_reassembly :
  decoded
    [terminated (bare_text "meta") +:+ "{" +:+ quote +:+ "eve";
     "nt" +:+ quote +:+ ":" +:+ quoted "chunk" +:+ ","
       +:+ field "payload" (object [field "content" (quoted "hi")]) +:+ "}"
       +:+ lf] ""
  = ([bare_text "meta"; chunk_text "hi"], "").
Proof. reflexivity. Qed.

(** C6.  Over any sequence of fragments the chunk decoder emits exactly
    the complete, newline-terminated lines of the whole text, in order:
    they are [split] of the text without its last element, none contains a
    line feed, and followed by the rest they give the text back.  The
    unterminated rest is carried in [buffer] from read to read, so a line
    that arrives in two fragments is emitted once, reassembled.  The read
    loop runs the [for] body over these lines only, and at the end of the
    stream the rest is dropped: a last fragment without a line feed changes
    neither the state nor the result of [generateRule]. *)
Theorem chunk_decoder_emits_complete_lines (fragments : list string) :
  let lines := fst (decoded fragments "") in
  let rest := snd (decoded fragments "") in
  lines = removelast (split_lf (concat_text fragments))
  /\ last (split_lf (concat_text fragments)) = Some rest
  /\ Forall (fun line => no_lf line = true) lines
  /\ no_lf rest = true
  /\ concat_text (map terminated lines) +:+ rest = concat_text fragments
  /\ (forall a b : string,
        no_lf a = true -> no_lf b = true ->
        decoded [a; terminated b] "" = ([a +:+ b], ""))
  /\ (forall JSON_parse l,
        buffer l = "" ->
        read_loop JSON_parse fragments l
        = (with_buffer (run_lines JSON_parse lines l) rest, Normal))
  /\ (forall JSON_parse request now response prev tail,
        ok response = true ->
        no_lf tail = true ->
        generateRule JSON_parse request now
          (with_body response (fragments ++ [tail])) prev
        = generateRule JSON_parse request now
            (with_body response fragments) prev).
Proof.
  cbv zeta. rewrite (decoded_cut fragments "" eq_refl).
  simpl (String.append "" _).
  repeat split.
  - now rewrite split_lf_cut, removelast_last.
  - now rewrite split_lf_cut, last_snoc.
  - apply cut_no_lf_lines.
  - apply cut_no_lf_rest.
  - apply cut_join.
  - intros a b Ha Hb. rewrite (decoded_cut _ "" eq_refl).
    simpl (String.append "" _).
    change (concat_text [a; terminated b]) with (a +:+ terminated b +:+ "").
    rewrite append_empty_r, cut_terminated, (cut_no_lf a Ha); auto.
  - intros JSON_parse l Hb. rewrite read_loop_decoded, Hb.
    now rewrite (decoded_cut fragments "" eq_refl).
  - intros JSON_parse request now response prev tail Hok Htail.
    rewrite (generateRule_resolves JSON_parse request now
               (with_body response (fragments ++ [tail])) prev
               (fragments ++ [tail]) Hok eq_refl).
    rewrite (generateRule_resolves JSON_parse request now
               (with_body response fragments) prev fragments Hok eq_refl).
    unfold observed.
    rewrite !(decoded_cut _ "" eq_refl). simpl (String.append "" _).
    rewrite concat_text_app, cut_app.
    change (concat_text [tail]) with (tail +:+ "").
    rewrite append_empty_r, (cut_no_lf (_ +:+ tail)).
    + simpl. now rewrite app_nil_r.
    + now rewrite no_lf_app, cut_no_lf_rest, Htail.
Qed.

Lemma chunk_decoder_emits_complete_lines_witness :
  let fragments := ["ab"; "c" +:+ lf +:+ "d"; "e" +:+ lf +:+ "f"] in
  fst (decoded fragments "") = removelast (split_lf (concat_text fragments))
  /\ fst (decoded fragments "") = ["abc"; "de"].
Proof.
  cbv zeta. split; [| reflexivity].
  exact (proj1 (chunk_decoder_emits_complete_lines
                  ["ab"; "c" +:+ lf +:+ "d"; "e" +:+ lf +:+ "f"])).
Defined.

(** C1 (the code departs from the claim).  A stream that delivers rule
    content and then [error {errorText: boom}]: the state update of
    [case 'error'] is made ([isGenerating] false, [error] boom), but the
    [Error] thrown after it is caught by the [catch (parseError)] of the
    same [try] block, so the promise does not reject: it resolves with the
    content accumulated so far. *)
Theorem error_event_is_caught_by_the_parse_handler :
  generateRule sample_parse sample_request 0
    (response_with [terminated (data_line (RuleContent "abc"));
                    terminated (data_line (ErrorEvent "boom"))])
    idle_state
  = ({| isGenerating := false; isStreamingRule := false;
        isStreamingFollowUp := false; currentPhase := idle;
        ruleContent := "abc"; followUpContent := "";
        error := Some "boom"; metadata := None |},
     Resolved
       {| res_ruleContent := "abc"; res_followUpMessage := "";
          res_ruleType := PROJECT_RULE; res_fileName := "generated-rule";
          res_metadata :=
            {| generatedAt := 0; res_model := "llama-3.3-70b-versatile";
               res_provider := "groq" |} |}).
Proof. vm_compute. reflexivity. Qed.

(** The [switch] does throw on an error chunk, with the text of the
    event, after recording it; the [try] block completes normally all the
    same. *)
Lemma error_chunk_thrown_and_caught JSON_parse jsonStr chunk l :
  JSON_parse jsonStr = Some chunk ->
  chunk_type chunk = "error" ->
  switch_chunk chunk l = (error_event chunk l, Throw (error_message chunk))
  /\ try_chunk JSON_parse jsonStr l = (error_event chunk l, Normal).
Proof.
  intros Hp Ht. unfold try_chunk, switch_chunk. rewrite Hp, Ht. now split.
Qed.

(** C2, as the claim states it, fails: a stream with a [phase-start] and
    one [rule-content] event and no terminal event resolves. *)
Lemma unterminated_stream_resolves :
  let fragments :=
    [terminated (data_line (PhaseStart RuleGenerationPhase None));
     terminated (data_line (RuleContent "abc"))] in
  forallb (fun chunk => negb (terminal chunk)) (observed sample_parse fragments)
  = true
  /\ snd (generateRule sample_parse sample_request 0 (response_with fragments)
            idle_state)
     = Resolved
         {| res_ruleContent := "abc"; res_followUpMessage := "";
            res_ruleType := PROJECT_RULE; res_fileName := "generated-rule";
            res_metadata :=
              {| generatedAt := 0; res_model := "llama-3.3-70b-versatile";
                 res_provider := "groq" |} |}.
Proof. split; vm_compute; reflexivity. Qed.

(** C2, amended.  When the transport succeeded and the stream ends
    without a terminal event (no [error], no [phase-end] of the follow-up
    phase), [generateRule] resolves: the result is built from the chunks
    the stream delivered, its rule content and follow-up message are the
    content accumulated in the state, and the state is left generating,
    with no error recorded. *)
Theorem stream_without_terminal_event_resolves
    JSON_parse request now response prev fragments :
  ok response = true ->
  body response = Some fragments ->
  forallb (fun chunk => negb (terminal chunk)) (observed JSON_parse fragments)
  = true ->
  exists s result,
    generateRule JSON_parse request now response prev = (s, Resolved result)
    /\ result = result_of request now
                  (apply_chunks (observed JSON_parse fragments)
                     (start_loop (on_entry prev)))
    /\ res_ruleContent result = ruleContent s
    /\ res_followUpMessage result = followUpContent s
    /\ isGenerating s = true
    /\ error s = None.
Proof.
  intros Hok Hbody Hterm.
  rewrite (generateRule_resolves JSON_parse request now response prev
             fragments Hok Hbody).
  set (l := apply_chunks _ _).
  assert (Hc : coherent l) by (apply apply_chunks_coherent; now split).
  destruct Hc as [Hr Hf].
  destruct (apply_chunks_not_terminal (observed JSON_parse fragments)
              (start_loop (on_entry prev)) Hterm) as [Hg He].
  exists (state l), (result_of request now l).
  repeat split; assumption.
Qed.

Lemma stream_without_terminal_event_resolves_witness :
  exists s result,
    generateRule sample_parse sample_request 0
      (response_with [terminated (data_line (RuleContent "abc"))]) idle_state
    = (s, Resolved result)
    /\ result = result_of sample_request 0
                  (apply_chunks
                     (observed sample_parse
                        [terminated (data_line (RuleContent "abc"))])
                     (start_loop (on_entry idle_state)))
    /\ res_ruleContent result = ruleContent s
    /\ res_followUpMessage result = followUpContent s
    /\ isGenerating s = true
    /\ error s = None.
Proof.
  apply (stream_without_terminal_event_resolves sample_parse sample_request 0
           (response_with [terminated (data_line (RuleContent "abc"))])
           idle_state [terminated (data_line (RuleContent "abc"))]);
    reflexivity.
Defined.

End Stream.

(* ===================================================================== *)
(** ** The event application reducer: the cases of the [switch] *)
(* ===================================================================== *)

Module Reducer.
Import JS RuleGeneration Producer Sample LoopFacts.

(** The fifth test of the specification: the phased stream of a complete
    generation, applied in a call made from the idle state. *)
Example terminal_completeness :
  let title := "# Title" +:+ lf in
  let final := "# Title" +:+ lf +:+ "## Done" +:+ lf in
  let md := {| ruleType := PROJECT_RULE; fileName := None |} in
  let l :=
    apply_chunks
      (map wire
         [PhaseStart RuleGenerationPhase (Some md); RuleContent title;
          PhaseEnd RuleGenerationPhase (Some final);
          PhaseStart FollowUpPhase None; FollowUpContent "All set!";
          PhaseEnd FollowUpPhase (Some "All set!")])
      (start_loop (on_entry idle_state)) in
  res_ruleContent (result_of sample_request 0 l) = final
  /\ res_followUpMessage (result_of sample_request 0 l) = "All set!"
  /\ res_ruleType (result_of sample_request 0 l) = PROJECT_RULE
  /\ currentPhase (state l) = completed
  /\ isGenerating (state l) = false.
Proof. repeat split. Qed.

(** C3, as the claim states it, fails: an empty [finalContent] is
    supplied, and the rule content stays the accumulated one. *)
Lemma empty_finalContent_does_not_override :
  let l := apply_chunk (wire (RuleContent "abc"))
             (start_loop (on_entry idle_state)) in
  let chunk := wire (PhaseEnd RuleGenerationPhase (Some "")) in
  chunk_finalContent chunk = Some ""
  /\ ruleContent (state l) = "abc"
  /\ ruleContent (state (apply_chunk chunk l)) = "abc"
  /\ ruleContent (state (apply_chunk chunk l)) <> "".
Proof. repeat split. discriminate. Qed.

(** C3, amended.  On [phase-end] of the rule-generation phase the rule
    content, in the state and in the accumulator, becomes the event's
    [finalContent] when that is supplied and not empty, and stays the
    accumulated rule content when it is absent or empty ([||]);
    [isStreamingRule] becomes false.  On [phase-end] of the follow-up phase
    the same holds of the follow-up content, and [isStreamingFollowUp]
    becomes false.  While the accumulators agree with the state (as they
    do throughout [generateRule]), the accumulated content is the content
    of the state. *)
Theorem phase_end_overrides_with_nonempty_finalContent chunk l :
  chunk_type chunk = "phase-end" ->
  (chunk_phase chunk = Some "rule-generation" ->
   let l' := apply_chunk chunk l in
   (forall c s, chunk_finalContent chunk = Some (String c s) ->
                ruleContent (state l') = String c s)
   /\ (chunk_finalContent chunk = None \/ chunk_finalContent chunk = Some "" ->
       ruleContent (state l') = currentRuleContent l
       /\ (coherent l -> ruleContent (state l') = ruleContent (state l)))
   /\ currentRuleContent l' = ruleContent (state l')
   /\ isStreamingRule (state l') = false)
  /\ (chunk_phase chunk = Some "follow-up-message" ->
      let l' := apply_chunk chunk l in
      (forall c s, chunk_finalContent chunk = Some (String c s) ->
                   followUpContent (state l') = String c s)
      /\ (chunk_finalContent chunk = None \/ chunk_finalContent chunk = Some "" ->
          followUpContent (state l') = currentFollowUpContent l
          /\ (coherent l ->
              followUpContent (state l') = followUpContent (state l)))
      /\ currentFollowUpContent l' = followUpContent (state l')
      /\ isStreamingFollowUp (state l') = false).
Proof.
  intros Ht. unfold apply_chunk, switch_chunk. rewrite Ht. simpl.
  unfold phase_end. split; intros Hp; rewrite Hp; simpl.
  - repeat split.
    + intros c s Hf. now rewrite Hf.
    + destruct H as [Hf | Hf]; now rewrite Hf.
    + intros [Hr _]. destruct H as [Hf | Hf]; now rewrite Hf.
  - repeat split.
    + intros c s Hf. now rewrite Hf.
    + destruct H as [Hf | Hf]; now rewrite Hf.
    + intros [_ Hf']. destruct H as [Hf | Hf]; now rewrite Hf.
Qed.

Lemma phase_end_overrides_with_nonempty_finalContent_witness :
  let chunk := wire (PhaseEnd RuleGenerationPhase (Some "# Title ## Done")) in
  let l := apply_chunk (wire (RuleContent "# Title"))
             (start_loop (on_entry idle_state)) in
  chunk_type chunk = "phase-end"
  /\ ruleContent (state (apply_chunk chunk l)) = "# Title ## Done".
Proof.
  cbv zeta. split; [reflexivity |].
  refine (proj1 (proj1 (phase_end_overrides_with_nonempty_finalContent
                          (wire (PhaseEnd RuleGenerationPhase
                                   (Some "# Title ## Done")))
                          (apply_chunk (wire (RuleContent "# Title"))
                             (start_loop (on_entry idle_state)))
                          eq_refl) eq_refl) _ _ eq_refl).
Defined.

(** C8, as the claim states it, fails: [phase-start] of the
    rule-generation phase arriving after content, or after an error, resets
    neither the rule content nor the error. *)
Lemma phase_start_does_not_reset_content :
  let chunk := wire (PhaseStart RuleGenerationPhase None) in
  let after_content :=
    apply_chunks [wire (RuleContent "abc"); wire (FollowUpContent "All set!")]
      (start_loop (on_entry idle_state)) in
  let after_error :=
    apply_chunk (wire (ErrorEvent "boom")) (start_loop (on_entry idle_state)) in
  ruleContent (state (apply_chunk chunk after_content)) = "abc"
  /\ followUpContent (state (apply_chunk chunk after_content)) = "All set!"
  /\ error (state (apply_chunk chunk after_error)) = Some "boom".
Proof. repeat split. Qed.

(** C8, amended.  [phase-start] of the rule-generation phase sets
    [isStreamingRule], sets the phase to rule-generation and stores the
    event's metadata (in the state and in the loop variable); it leaves the
    rule content, the follow-up content, the error, [isGenerating] and
    [isStreamingFollowUp] as they were.  The reset of the two contents to
    the empty string and of the error to null is made by [generateRule] on
    entry, before the stream is read, together with [isGenerating] true and
    the phase rule-generation; so a [phase-start] that is the first event
    of a call finds and leaves them reset. *)
Theorem phase_start_rule_generation_update chunk l :
  chunk_type chunk = "phase-start" ->
  chunk_phase chunk = Some "rule-generation" ->
  let s := state l in
  let s' := state (apply_chunk chunk l) in
  (isStreamingRule s' = true
   /\ currentPhase s' = rule_generation
   /\ metadata s' = chunk_metadata chunk
   /\ loop_metadata (apply_chunk chunk l) = chunk_metadata chunk)
  /\ (ruleContent s' = ruleContent s
      /\ followUpContent s' = followUpContent s
      /\ error s' = error s
      /\ isGenerating s' = isGenerating s
      /\ isStreamingFollowUp s' = isStreamingFollowUp s)
  /\ (forall prev,
        let e := on_entry prev in
        ruleContent e = "" /\ followUpContent e = "" /\ error e = None
        /\ isGenerating e = true /\ currentPhase e = rule_generation)
  /\ (forall prev,
        let first := state (apply_chunk chunk (start_loop (on_entry prev))) in
        isStreamingRule first = true
        /\ currentPhase first = rule_generation
        /\ ruleContent first = "" /\ followUpContent first = ""
        /\ error first = None
        /\ metadata first = chunk_metadata chunk).
Proof.
  intros Ht Hp. unfold apply_chunk, switch_chunk. rewrite Ht. simpl.
  unfold phase_start. rewrite Hp. simpl. repeat split.
Qed.

Lemma phase_start_rule_generation_update_witness :
  let chunk := wire (PhaseStart RuleGenerationPhase
                       (Some {| ruleType := COMMAND; fileName := None |})) in
  let l := start_loop (on_entry idle_state) in
  chunk_type chunk = "phase-start"
  /\ chunk_phase chunk = Some "rule-generation"
  /\ isStreamingRule (state (apply_chunk chunk l)) = true
  /\ metadata (state (apply_chunk chunk l))
     = Some {| ruleType := COMMAND; fileName := None |}.
Proof.
  cbv zeta. split; [reflexivity |]. split; [reflexivity |].
  pose proof (phase_start_rule_generation_update
                (wire (PhaseStart RuleGenerationPhase
                         (Some {| ruleType := COMMAND; fileName := None |})))
                (start_loop (on_entry idle_state)) eq_refl eq_refl) as H.
  cbv zeta in H. destruct H as [[H1 [_ [H3 _]]] _]. split; assumption.
Defined.

End Reducer.

(* ===================================================================== *)
(** ** The phased stream of the producer, applied by the reducer *)
(* ===================================================================== *)

Module Phases.
Import JS RuleGeneration Producer Sample LoopFacts.

Lemma accepts_app k es es' :
  accepts k (es ++ es')
  = match accepts k es with
    | Some k' => accepts k' es'
    | None => None
    end.
Proof.
  revert k. induction es as [|e es IH]; intros k; [reflexivity |].
  simpl. destruct (accept k e) as [k1|]; simpl; [apply IH | reflexivity].
Qed.

Lemma transition_accepts q es q' :
  transition q es q' -> accepts (At q) es = Some (At q').
Proof.
  destruct 1 as [| | | | |q t Hq]; try reflexivity.
  simpl. destruct q; simpl in *; try discriminate; reflexivity.
Qed.

(** The events of a run are read, one at a time, by [accept]. *)
Lemma emits_accepts q es q' : emits q es q' -> accepts (At q) es = Some (At q').
Proof.
  induction 1 as [q | q1 es q2 es' q3 Ht _ IH]; [reflexivity |].
  now rewrite accepts_app, (transition_accepts _ _ _ Ht).
Qed.

(** Every event the machine lets through keeps the reducer's state in
    agreement with the machine. *)
Lemma accept_agrees k e k' l :
  accept k e = Some k' ->
  agrees k (state l) ->
  agrees k' (state (apply_chunk (wire e) l)).
Proof.
  destruct l as [s b rc fc md].
  destruct k as [[| | | |]|];
    destruct e as [[|] m | c | c | [|] f | t];
    simpl; try discriminate;
    intros [= <-]; simpl; try tauto.
  - unfold apply_chunk; simpl. unfold rule_content.
    destruct (truthy _); simpl; tauto.
  - unfold apply_chunk; simpl. unfold follow_up_content.
    destruct (truthy _); simpl; tauto.
Qed.

Lemma accepts_agrees es k k' l :
  accepts k es = Some k' ->
  agrees k (state l) ->
  agrees k' (state (apply_chunks (map wire es) l)).
Proof.
  revert k l. induction es as [|e es IH]; intros k l.
  - simpl. now intros [= <-].
  - simpl. destruct (accept k e) as [k1|] eqn:E; simpl; [| discriminate].
    intros Hes Hk. apply (IH k1); [assumption |].
    now apply (accept_agrees k e k1).
Qed.

(** Follow-up content is only let through after the rule-generation
    phase was ended and the follow-up phase started. *)
Lemma accepts_follow_up es k :
  accepts k es = Some (At FollowUp) ->
  (k = At FollowUp /\ exists contents, es = map FollowUpContent contents)
  \/ (k = Between
      /\ exists md contents,
           es = PhaseStart FollowUpPhase md :: map FollowUpContent contents)
  \/ (exists before finalContent md contents,
        es = before
             ++ [PhaseEnd RuleGenerationPhase finalContent;
                 PhaseStart FollowUpPhase md]
             ++ map FollowUpContent contents).
Proof.
  revert k. induction es as [|e es IH]; intros k.
  - simpl. intros [= ->]. left. split; [reflexivity |]. now exists [].
  - simpl. destruct (accept k e) as [k1|] eqn:E; simpl; [| discriminate].
    intros Hes.
    destruct (IH k1 Hes)
      as [[-> [cs ->]] | [[-> [md [cs ->]]] | [before [f [md [cs ->]]]]]].
    + destruct k as [[| | | |]|];
        destruct e as [[|] m | c | c | [|] f | t]; simpl in E;
        try discriminate.
      * left. split; [reflexivity |]. now exists (c :: cs).
      * right; left. split; [reflexivity |]. now exists m, cs.
    + destruct k as [[| | | |]|];
        destruct e as [[|] m | c | c | [|] f | t]; simpl in E;
        try discriminate.
      right; right. now exists [], f, md, cs.
    + right; right. now exists (e :: before), f, md, cs.
Qed.

(** C9.  Take any event sequence the producer's phase state machine emits
    from [Idle], and apply any part of it, in order, to a state in which
    neither phase is streaming: the idle state, or the state of a
    [generateRule] call made in the idle state.  In the state reached,
    [isStreamingRule] and [isStreamingFollowUp] are not both true; and if
    the next event is a [follow-up-content], the phase of the state is the
    follow-up phase (not rule-generation), [isStreamingFollowUp] is set, and
    the events applied so far contain [phase-end] of the rule-generation
    phase immediately followed by [phase-start] of the follow-up phase, with
    only follow-up content after them. *)
Theorem phase_ordering_invariant
    (es : list StreamEvent) (q : ProducerState) (l0 : Loop) :
  emits Idle es q ->
  isStreamingRule (state l0) = false ->
  isStreamingFollowUp (state l0) = false ->
  forall applied rest,
    es = applied ++ rest ->
    let l := apply_chunks (map wire applied) l0 in
    isStreamingRule (state l) && isStreamingFollowUp (state l) = false
    /\ (forall content rest',
          rest = FollowUpContent content :: rest' ->
          currentPhase (state l) = follow_up_message
          /\ isStreamingFollowUp (state l) = true
          /\ exists before finalContent md contents,
               applied = before
                         ++ [PhaseEnd RuleGenerationPhase finalContent;
                             PhaseStart FollowUpPhase md]
                         ++ map FollowUpContent contents).
Proof.
  intros Hemits Hr0 Hf0 applied rest ->.
  apply emits_accepts in Hemits. rewrite accepts_app in Hemits.
  destruct (accepts (At Idle) applied) as [k|] eqn:Hk; [| discriminate].
  simpl in Hemits.
  assert (Hag : agrees k (state (apply_chunks (map wire applied) l0))).
  { apply (accepts_agrees applied (At Idle)); [assumption | now split]. }
  cbv zeta. split.
  - destruct k as [[| | | |]|]; simpl in Hag;
      destruct Hag as [Hr Hf]; rewrite Hr; try reflexivity.
    destruct Hf as [Hf _]. now rewrite Hf.
  - intros content rest' ->. simpl in Hemits.
    destruct k as [[| | | |]|]; simpl in Hemits; try discriminate.
    destruct Hag as [_ [Hf Hp]]. repeat split; try assumption.
    destruct (accepts_follow_up applied (At Idle) Hk)
      as [[[=] _] | [[[=] _] | H]]; assumption.
Qed.

Lemma phase_ordering_invariant_witness :
  let applied :=
    [PhaseStart RuleGenerationPhase None; RuleContent "abc";
     PhaseEnd RuleGenerationPhase None; PhaseStart FollowUpPhase None] in
  let rest := [FollowUpContent "All set!";
               PhaseEnd FollowUpPhase (Some "All set!")] in
  let l := apply_chunks (map wire applied) (start_loop (on_entry idle_state)) in
  emits Idle (applied ++ rest) Completed
  /\ isStreamingRule (state l) && isStreamingFollowUp (state l) = false
  /\ currentPhase (state l) = follow_up_message.
Proof.
  cbv zeta.
  assert (H : emits Idle
                ([PhaseStart RuleGenerationPhase None; RuleContent "abc";
                  PhaseEnd RuleGenerationPhase None;
                  PhaseStart FollowUpPhase None]
                 ++ [FollowUpContent "All set!";
                     PhaseEnd FollowUpPhase (Some "All set!")]) Completed).
  { apply (emits_more Idle [_] RuleGeneration _ Completed (begin_rule None)).
    apply (emits_more _ [_] RuleGeneration _ _ (rule_increment "abc")).
    apply (emits_more _ [_; _] FollowUp _ _ (begin_follow_up None None)).
    apply (emits_more _ [_] FollowUp _ _ (follow_up_increment "All set!")).
    apply (emits_more _ [_] Completed [] _ (complete (Some "All set!"))).
    apply emits_nothing. }
  split; [exact H |].
  destruct (phase_ordering_invariant _ _ (start_loop (on_entry idle_state))
              H eq_refl eq_refl _ _ eq_refl) as [H1 H2].
  split; [exact H1 |].
  exact (proj1 (H2 _ _ eq_refl)).
Defined.

End Phases.

(* ===================================================================== *)
(** ** The completion gate and the processed-message guard of the panel *)
(* ===================================================================== *)

Module PanelFacts.
Import JS ChatPanel.

Lemma handleStreamingEvent_refs r e p :
  processedMessageIdsRef (handleStreamingEvent r e p) = processedMessageIdsRef p
  /\ pendingEventsRef (handleStreamingEvent r e p) = pendingEventsRef p
  /\ eventOnlyMessageIds (handleStreamingEvent r e p) = eventOnlyMessageIds p.
Proof.
  unfold handleStreamingEvent, call_if_payload.
  destruct (event e) as [name|]; [| auto].
  repeat (destruct (String.eqb name _);
          [destruct (payload e); destruct (render_isGeneratingRules r);
           simpl; auto |]).
  auto.
Qed.

Lemma handle_all_refs r es p :
  let p' := fold_left (fun p e => handleStreamingEvent r e p) es p in
  processedMessageIdsRef p' = processedMessageIdsRef p
  /\ pendingEventsRef p' = pendingEventsRef p.
Proof.
  revert p. induction es as [|e es IH]; intros p; [now split |].
  simpl. destruct (IH (handleStreamingEvent r e p)) as [H1 H2].
  destruct (handleStreamingEvent_refs r e p) as [H3 [H4 _]].
  cbv zeta in *. split; congruence.
Qed.

(** Draining the pending events leaves none and does not touch the set
    of processed messages. *)
Lemma pending_effect_refs r p :
  processedMessageIdsRef (pending_effect r p) = processedMessageIdsRef p
  /\ pendingEventsRef (pending_effect r p) = [].
Proof.
  unfold pending_effect. destruct (pendingEventsRef p) as [|e es] eqn:E.
  - now split.
  - destruct (handle_all_refs r (e :: es) (clear_pending p)) as [H1 H2].
    cbv zeta in *. now rewrite H1, H2.
Qed.

Lemma pending_effect_idle r p : pendingEventsRef p = [] -> pending_effect r p = p.
Proof. unfold pending_effect. now intros ->. Qed.


Section MessageEffectFacts.

Variable JSON_parse : string -> option StreamingEvent.

(** The message effect only ever reaches the parser with the last
    message, an assistant message with every text part done, not seen
    before; it then records the message. *)
Lemma message_effect_processing chatMessages p j es :
  snd (message_effect JSON_parse chatMessages p) = Processing j es ->
  settled j chatMessages = true
  /\ (j ∉ processedMessageIdsRef p)
  /\ (j ∈ processedMessageIdsRef
             (fst (message_effect JSON_parse chatMessages p))).
Proof.
  unfold message_effect, settled.
  destruct (last chatMessages) as [m|]; [| discriminate].
  destruct (role m); try discriminate.
  destruct (isDone m) as [[|]|]; simpl; try discriminate.
  case_bool_decide as Hin; [discriminate |].
  destruct (parts m) as [ps|]; [| discriminate].
  simpl. intros [= <- _]. rewrite String.eqb_refl.
  repeat split; [assumption |].
  destruct (parse_message JSON_parse m ps); simpl; set_solver.
Qed.

(** A message that was recorded stays recorded, and is not parsed. *)
Lemma message_effect_recorded chatMessages p i :
  i ∈ processedMessageIdsRef p ->
  parsed i (snd (message_effect JSON_parse chatMessages p)) = false
  /\ i ∈ processedMessageIdsRef (fst (message_effect JSON_parse chatMessages p)).
Proof.
  intros Hi. unfold message_effect.
  destruct (last chatMessages) as [m|]; [| now split].
  destruct (role m); try now split.
  destruct (negb _); [now split |].
  case_bool_decide as Hin; [now split |].
  assert (Hne : i <> msg_id m) by (intros ->; contradiction).
  destruct (parts m) as [ps|]; simpl.
  - apply String.eqb_neq in Hne. rewrite Hne. split; [reflexivity |].
    destruct (parse_message JSON_parse m ps); simpl; set_solver.
  - split; [reflexivity | set_solver].
Qed.

(** The first settled presentation of a message hands it to the parser
    and records it. *)
Lemma message_effect_first chatMessages p i :
  i ∉ processedMessageIdsRef p ->
  settled i chatMessages = true ->
  parsed i (snd (message_effect JSON_parse chatMessages p)) = true
  /\ (exists es, snd (message_effect JSON_parse chatMessages p) = Processing i es)
  /\ i ∈ processedMessageIdsRef (fst (message_effect JSON_parse chatMessages p)).
Proof.
  intros Hi. unfold message_effect, settled.
  destruct (last chatMessages) as [m|]; [| discriminate].
  destruct (role m); try discriminate.
  intros H. apply andb_prop in H as [Hid Hdone].
  apply String.eqb_eq in Hid. subst i.
  unfold isDone in *. destruct (parts m) as [ps|]; [| discriminate].
  simpl in *. rewrite Hdone. simpl.
  rewrite bool_decide_eq_false_2 by assumption.
  simpl. rewrite String.eqb_refl. split; [reflexivity |].
  split; [now eexists |].
  destruct (parse_message JSON_parse m ps); simpl; set_solver.
Qed.


Lemma render_verdict chatMessages p :
  snd (render JSON_parse chatMessages p)
  = snd (message_effect JSON_parse chatMessages p).
Proof.
  unfold render. now destruct (message_effect JSON_parse chatMessages p).
Qed.

Lemma render_processed chatMessages p :
  processedMessageIdsRef (fst (render JSON_parse chatMessages p))
  = processedMessageIdsRef (fst (message_effect JSON_parse chatMessages p)).
Proof.
  unfold render. destruct (message_effect JSON_parse chatMessages p) as [p' v].
  apply pending_effect_refs.
Qed.

Lemma render_pending chatMessages p :
  pendingEventsRef (fst (render JSON_parse chatMessages p)) = [].
Proof.
  unfold render. destruct (message_effect JSON_parse chatMessages p) as [p' v].
  apply pending_effect_refs.
Qed.

(** A render that presents a recorded message, with nothing pending,
    changes nothing. *)
Lemma render_recorded chatMessages p i :
  i ∈ processedMessageIdsRef p ->
  pendingEventsRef p = [] ->
  presents i chatMessages = true ->
  fst (render JSON_parse chatMessages p) = p
  /\ forall j es, snd (render JSON_parse chatMessages p) <> Processing j es.
Proof.
  intros Hi Hp. unfold presents, render, message_effect.
  destruct (last chatMessages) as [m|]; [| discriminate].
  intros Hid. apply String.eqb_eq in Hid. subst i.
  destruct (role m); simpl; try (split; [now apply pending_effect_idle | easy]).
  destruct (negb _); simpl;
    try (split; [now apply pending_effect_idle | easy]).
  rewrite bool_decide_eq_true_2 by assumption.
  split; [now apply pending_effect_idle | easy].
Qed.

Lemma renders_verdicts_length snapshots p :
  length (snd (renders JSON_parse snapshots p)) = length snapshots.
Proof.
  revert p. induction snapshots as [|c rest IH]; intros p; [reflexivity |].
  simpl. destruct (render JSON_parse c p) as [p1 v].
  specialize (IH p1). destruct (renders JSON_parse rest p1) as [p2 vs].
  simpl in *. now rewrite IH.
Qed.




End MessageEffectFacts.

End PanelFacts.

(* ===================================================================== *)
(** ** The panel: completion gate, guard and handler *)
(* ===================================================================== *)

Module Panel.
Import JS ChatPanel Sample PanelFacts.



(** C5.  The first render that presents the settled message [i], not seen
    before, hands it to the parser, queues and handles its events and
    records the id.  Every later render that presents the id [i] again is
    skipped: it reaches neither the parser nor the handler and leaves the
    panel as it was, so the rule content is the one the single application
    produced. *)
Theorem dedup_guard_applies_message_once
    (JSON_parse : string -> option StreamingEvent)
    (chatMessages : list UIMessage) (again : list (list UIMessage))
    (p : Panel) (i : string) :
  i ∉ processedMessageIdsRef p ->
  settled i chatMessages = true ->
  Forall (fun c => presents i c = true) again ->
  let first := render JSON_parse chatMessages p in
  let later := renders JSON_parse again (fst first) in
  (exists es, snd first = Processing i es)
  /\ (i ∈ processedMessageIdsRef (fst first))
  /\ fst later = fst first
  /\ ruleContent (fst later) = ruleContent (fst first)
  /\ Forall (fun v => forall j es, v <> Processing j es) (snd later).
Proof.
  intros Hi Hs Hagain. cbv zeta.
  destruct (message_effect_first JSON_parse chatMessages p i Hi Hs)
    as [_ [Hes Hin]].
  rewrite <- render_verdict in Hes. rewrite <- render_processed in Hin.
  pose proof (render_pending JSON_parse chatMessages p) as Hpend.
  set (p1 := fst (render JSON_parse chatMessages p)) in *.
  split; [assumption |]. split; [assumption |].
  assert (H : fst (renders JSON_parse again p1) = p1
              /\ Forall (fun v => forall j es, v <> Processing j es)
                   (snd (renders JSON_parse again p1))).
  { clearbody p1. induction Hagain as [|c rest Hc _ IH]; [now split |].
    simpl. destruct (render_recorded JSON_parse c p1 i Hin Hpend Hc) as [He Hv].
    destruct (render JSON_parse c p1) as [p2 v]. simpl in He, Hv. subst p2.
    destruct (renders JSON_parse rest p1) as [p3 vs]. simpl in *.
    destruct IH as [-> Hvs]. split; [reflexivity |]. now constructor. }
  destruct H as [He Hv]. rewrite He. now repeat split.
Qed.

Lemma dedup_guard_applies_message_once_witness :
  let m := assistant_message "m2" (terminated (chunk_text "hi")) done in
  let p := setIsGeneratingRules true initial in
  ("m2" ∉ processedMessageIdsRef p)
  /\ ruleContent (fst (renders sample_parse_event [[m]; [m]]
                         (fst (render sample_parse_event [m] p))))
     = ruleContent (fst (render sample_parse_event [m] p))
  /\ ruleContent (fst (render sample_parse_event [m] p)) = "hi".
Proof.
  cbv zeta. split; [apply not_elem_of_empty |]. split; [| reflexivity].
  pose proof (dedup_guard_applies_message_once sample_parse_event
                [assistant_message "m2" (terminated (chunk_text "hi")) done]
                [[assistant_message "m2" (terminated (chunk_text "hi")) done];
                 [assistant_message "m2" (terminated (chunk_text "hi")) done]]
                (setIsGeneratingRules true initial) "m2"
                (not_elem_of_empty _) eq_refl
                ltac:(repeat constructor)) as H.
  cbv zeta in H. exact (proj1 (proj2 (proj2 (proj2 H)))).
Defined.




End Panel.

(* ===================================================================== *)
(** ** A malformed line between two content events *)
(* ===================================================================== *)

Module Tolerance.
Import JS DecoderFacts LoopFacts Sample.

Lemma split_three_lines (t1 t2 t3 : string) :
  no_lf t1 = true -> no_lf t2 = true -> no_lf t3 = true ->
  split_lf (terminated t1 +:+ terminated t2 +:+ t3) = [t1; t2; t3].
Proof.
  intros H1 H2 H3. rewrite split_lf_cut.
  replace (terminated t1 +:+ terminated t2 +:+ t3)
    with (concat_text (map terminated [t1; t2]) +:+ t3).
  - rewrite cut_app, cut_lines by (repeat constructor; assumption).
    cbn [fst snd]. simpl (String.append "" _). now rewrite (cut_no_lf t3 H3).
  - change (concat_text (map terminated [t1; t2]))
      with (terminated t1 +:+ terminated t2 +:+ "").
    now rewrite append_empty_r, append_assoc.
Qed.

Lemma terminated_not_empty (t rest : string) : terminated t +:+ rest <> "".
Proof. now destruct t. Qed.

Section MalformedLine.

Import RuleGeneration.

(** The stream of [generateRule]: two lines that deliver [rule-content]
    chunks, and between them a line whose JSON text is rejected. *)
Variable JSON_parse : string -> option RuleGenerationStreamChunk.
Variables first bad second : string.
Variables k1 k2 : RuleGenerationStreamChunk.
Variables c1 c2 : string.
Hypothesis first_line : no_lf first = true.
Hypothesis bad_line : no_lf bad = true.
Hypothesis second_line : no_lf second = true.
Hypothesis first_chunk : chunk_of_line JSON_parse first = Some k1.
Hypothesis first_type : chunk_type k1 = "rule-content".
Hypothesis first_content : chunk_content k1 = Some c1.
Hypothesis second_chunk : chunk_of_line JSON_parse second = Some k2.
Hypothesis second_type : chunk_type k2 = "rule-content".
Hypothesis second_content : chunk_content k2 = Some c2.
Hypothesis bad_json : JSON_parse (slice bad 6) = None.

(** The message of the panel: a text part of two lines that parse to
    valid [chunk] events, and between them a line that is rejected. *)
Variable JSON_parse_event : string -> option ChatPanel.StreamingEvent.
Variables t1 tbad t2 : string.
Variables e1 e2 : ChatPanel.StreamingEvent.
Hypothesis t1_line : no_lf t1 = true.
Hypothesis tbad_line : no_lf tbad = true.
Hypothesis t2_line : no_lf t2 = true.
Hypothesis t1_text : trim t1 <> "".
Hypothesis t2_text : trim t2 <> "".
Hypothesis t1_event : JSON_parse_event (trim t1) = Some e1.
Hypothesis t1_name : ChatPanel.event e1 = Some "chunk".
Hypothesis t2_event : JSON_parse_event (trim t2) = Some e2.
Hypothesis t2_name : ChatPanel.event e2 = Some "chunk".
Hypothesis tbad_json : JSON_parse_event (trim tbad) = None.

Lemma bad_line_no_chunk : chunk_of_line JSON_parse bad = None.
Proof.
  unfold chunk_of_line. destruct (String.eqb _ _); [reflexivity |].
  now destruct (startsWith _ _).
Qed.

Lemma rule_content_appends k c l :
  chunk_type k = "rule-content" ->
  chunk_content k = Some c ->
  currentRuleContent (apply_chunk k l) = currentRuleContent l +:+ c
  /\ ruleContent (state (apply_chunk k l)) =
     (if truthy (Some c) then currentRuleContent l +:+ c
      else ruleContent (state l)).
Proof.
  intros Ht Hc. unfold apply_chunk, switch_chunk. rewrite Ht. simpl.
  unfold rule_content. rewrite Hc.
  destruct c; simpl; [now rewrite append_empty_r | now split].
Qed.

Lemma three_lines_chunks :
  chunks_of_lines JSON_parse [first; bad; second] = [k1; k2].
Proof.
  unfold chunks_of_lines. simpl.
  now rewrite first_chunk, bad_line_no_chunk, second_chunk.
Qed.

Lemma parse_three_lines :
  ChatPanel.parse_lines JSON_parse_event [t1; tbad; t2] = [e1; e2].
Proof.
  unfold ChatPanel.parse_lines, ChatPanel.parse_candidate,
    ChatPanel.valid_event. simpl.
  apply String.eqb_neq in t1_text, t2_text.
  rewrite t1_text, t2_text, t1_event, t2_event, tbad_json, t1_name, t2_name.
  simpl. now destruct (String.eqb (trim tbad) "").
Qed.

(** C7.  In [generateRule], a line whose JSON text is rejected, between
    two lines that deliver [rule-content] chunks, is dropped inside the
    [for] body: the loop completes normally, and from any loop state the
    three lines leave what the two valid lines alone leave, the rule
    content extended by the content of the two chunks.  For every
    fragmentation of the three-line stream the promise resolves, and the
    rule content of the result and of the state is the concatenation of
    the two contents.  In the panel, the event line parser drops the
    rejected line of a text part and queues exactly the two valid [chunk]
    events; handled in a render that is generating, they extend the rule
    content by their two contents. *)
Theorem malformed_line_is_dropped :
  (forall l,
     for_lines JSON_parse [first; bad; second] l
     = (run_lines JSON_parse [first; second] l, Normal)
     /\ currentRuleContent (run_lines JSON_parse [first; bad; second] l)
        = (currentRuleContent l +:+ c1) +:+ c2)
  /\ (forall request now response prev fragments,
        ok response = true ->
        body response = Some fragments ->
        concat_text fragments
        = terminated first +:+ terminated bad +:+ terminated second ->
        exists s result,
          generateRule JSON_parse request now response prev
          = (s, Resolved result)
          /\ res_ruleContent result = c1 +:+ c2
          /\ ruleContent s = c1 +:+ c2)
  /\ (forall st,
        ChatPanel.parse_part JSON_parse_event
          (ChatPanel.TextUIPart (terminated t1 +:+ terminated tbad +:+ t2) st)
        = [e1; e2])
  /\ (forall p i,
        i ∉ ChatPanel.processedMessageIdsRef p ->
        ChatPanel.pendingEventsRef p = [] ->
        ChatPanel.isGeneratingRules p = true ->
        let m := assistant_message i
                   (terminated t1 +:+ terminated tbad +:+ t2)
                   ChatPanel.done in
        snd (ChatPanel.render JSON_parse_event [m] p)
        = ChatPanel.Processing i [e1; e2]
        /\ ChatPanel.ruleContent (fst (ChatPanel.render JSON_parse_event [m] p))
           = (ChatPanel.ruleContent p +:+ ChatPanel.content_of e1)
             +:+ ChatPanel.content_of e2).
Proof.
  assert (Hpart : forall st,
            ChatPanel.parse_part JSON_parse_event
              (ChatPanel.TextUIPart
                 (terminated t1 +:+ terminated tbad +:+ t2) st)
            = [e1; e2]).
  { intros st. unfold ChatPanel.parse_part.
    pose proof (terminated_not_empty t1 (terminated tbad +:+ t2)) as Hne.
    destruct (terminated t1 +:+ terminated tbad +:+ t2) as [|c t] eqn:E;
      [contradiction |].
    rewrite <- E, split_three_lines by assumption. apply parse_three_lines. }
  split; [| split; [| split]].
  - intros l. rewrite for_lines_run, !run_lines_chunks, three_lines_chunks.
    split.
    + f_equal. unfold chunks_of_lines. simpl.
      now rewrite first_chunk, second_chunk.
    + simpl.
      destruct (rule_content_appends k2 c2 (apply_chunk k1 l)
                  second_type second_content) as [-> _].
      now destruct (rule_content_appends k1 c1 l first_type first_content)
        as [-> _].
  - intros request now response prev fragments Hok Hbody Htext.
    rewrite (generateRule_resolves JSON_parse request now response prev
               fragments Hok Hbody).
    assert (Hobs : observed JSON_parse fragments = [k1; k2]).
    { unfold observed. rewrite (decoded_cut fragments "" eq_refl).
      simpl (String.append "" _). rewrite Htext.
      replace (terminated first +:+ terminated bad +:+ terminated second)
        with (concat_text (map terminated [first; bad; second])).
      - rewrite cut_lines by (repeat constructor; assumption).
        apply three_lines_chunks.
      - change (concat_text (map terminated [first; bad; second]))
          with (terminated first +:+ terminated bad
                +:+ terminated second +:+ "").
        now rewrite append_empty_r. }
    rewrite Hobs. set (l0 := start_loop (on_entry prev)).
    assert (Hcur : currentRuleContent (apply_chunks [k1; k2] l0) = c1 +:+ c2).
    { simpl.
      destruct (rule_content_appends k2 c2 (apply_chunk k1 l0)
                  second_type second_content) as [-> _].
      now destruct (rule_content_appends k1 c1 l0 first_type first_content)
        as [-> _]. }
    assert (Hco : coherent (apply_chunks [k1; k2] l0))
      by (apply apply_chunks_coherent; now split).
    destruct Hco as [Hr _].
    eexists _, _. split; [reflexivity |]. split; [exact Hcur |].
    now rewrite <- Hr.
  - exact Hpart.
  - intros p i Hi Hpend Hgen. cbv zeta.
    unfold ChatPanel.render, ChatPanel.message_effect.
    cbn -[ChatPanel.parse_message terminated String.append].
    rewrite bool_decide_eq_false_2 by assumption.
    unfold ChatPanel.parse_message.
    cbn -[ChatPanel.parse_part terminated String.append].
    rewrite Hpart. simpl.
    split; [reflexivity |].
    unfold ChatPanel.pending_effect. simpl. rewrite Hpend. simpl.
    unfold ChatPanel.handleStreamingEvent. rewrite t1_name, t2_name. simpl.
    now rewrite Hgen.
Qed.

End MalformedLine.

Lemma malformed_line_is_dropped_witness :
  let first := data_line (Producer.RuleContent "abc") in
  let bad := "data: {" +:+ quote +:+ "type" in
  let second := data_line (Producer.RuleContent "def") in
  no_lf bad = true
  /\ sample_parse (slice bad 6) = None
  /\ sample_parse_event (trim (bare_text "type")) = None
  /\ (exists s result,
        RuleGeneration.generateRule sample_parse sample_request 0
          (response_with [terminated first +:+ "data: {";
                          quote +:+ "type" +:+ lf +:+ second; lf])
          RuleGeneration.idle_state
        = (s, RuleGeneration.Resolved result)
        /\ RuleGeneration.res_ruleContent result = "abcdef"
        /\ RuleGeneration.ruleContent s = "abcdef")
  /\ ChatPanel.parse_part sample_parse_event
       (ChatPanel.TextUIPart
          (terminated (chunk_text "hi") +:+ terminated (bare_text "type")
           +:+ chunk_text "there") (Some ChatPanel.done))
     = [chunk_event "hi"; chunk_event "there"].
Proof.
  cbv zeta.
  split; [reflexivity |]. split; [reflexivity |]. split; [reflexivity |].
  pose proof (malformed_line_is_dropped sample_parse
                (data_line (Producer.RuleContent "abc"))
                ("data: {" +:+ quote +:+ "type")
                (data_line (Producer.RuleContent "def"))
                (Producer.wire (Producer.RuleContent "abc"))
                (Producer.wire (Producer.RuleContent "def"))
                "abc" "def"
                eq_refl eq_refl eq_refl eq_refl eq_refl eq_refl
                eq_refl eq_refl eq_refl eq_refl
                sample_parse_event
                (chunk_text "hi") (bare_text "type") (chunk_text "there")
                (chunk_event "hi") (chunk_event "there")
                eq_refl eq_refl eq_refl
                ltac:(discriminate) ltac:(discriminate)
                eq_refl eq_refl eq_refl eq_refl eq_refl) as [_ [H2 [H3 _]]].
  split; [| apply H3].
  apply (H2 sample_request 0
           (response_with
              [terminated (data_line (Producer.RuleContent "abc")) +:+ "data: {";
               quote +:+ "type" +:+ lf
                 +:+ data_line (Producer.RuleContent "def"); lf])
           RuleGeneration.idle_state _ eq_refl eq_refl).
  reflexivity.
Defined.

End Tolerance.

(* ===================================================================== *)
(** ** More about [generateRule]: transport, framing, accumulation *)
(* ===================================================================== *)

Module SessionFacts.
Import JS RuleGeneration Session Producer Sample DecoderFacts LoopFacts.


Example service_unavailable :
  snd (generateRule sample_parse sample_request 0
         {| ok := false; status := 503; statusText := "Service Unavailable";
            body := Some [terminated (data_line (RuleContent "abc"))] |}
         idle_state)
  = Rejected "HTTP 503: Service Unavailable".
Proof. reflexivity. Qed.

(** X2.  The outcome of [generateRule] depends on the text of the stream
    only, not on how the transport cuts it into fragments. *)
Theorem generateRule_ignores_fragment_boundaries
    JSON_parse request now response prev fragments fragments' :
  concat_text fragments = concat_text fragments' ->
  generateRule JSON_parse request now (with_body response fragments) prev
  = generateRule JSON_parse request now (with_body response fragments') prev.
Proof.
  intros Htext. unfold generateRule. simpl.
  destruct (ok response); simpl; [| reflexivity].
  rewrite !read_loop_decoded. simpl.
  now rewrite !(decoded_cut _ "" eq_refl), Htext.
Qed.

Lemma generateRule_ignores_fragment_boundaries_witness :
  let line := data_line (RuleContent "abc") in
  concat_text [terminated line] = concat_text ["data: "; slice line 6; lf]
  /\ generateRule sample_parse sample_request 0
       (with_body (response_with []) [terminated line]) idle_state
     = generateRule sample_parse sample_request 0
         (with_body (response_with []) ["data: "; slice line 6; lf])
         idle_state.
Proof.
  cbv zeta. split; [reflexivity |].
  apply (generateRule_ignores_fragment_boundaries sample_parse sample_request 0
           (response_with []) idle_state
           [terminated (data_line (RuleContent "abc"))]
           ["data: "; slice (data_line (RuleContent "abc")) 6; lf]).
  reflexivity.
Defined.

Lemma chunk_of_line_without_prefix JSON_parse line :
  has_prefix line = false -> chunk_of_line JSON_parse line = None.
Proof.
  unfold has_prefix, chunk_of_line. intros ->.
  now destruct (String.eqb _ _).
Qed.

(** X3.  A line that does not start with [data: ] never reaches the
    parser: the [for] loop over any lines does what it does over the
    prefixed lines among them, whatever the other lines hold (a bare JSON
    object included). *)
Theorem lines_without_prefix_are_ignored JSON_parse lines l :
  chunks_of_lines JSON_parse lines
  = chunks_of_lines JSON_parse (List.filter has_prefix lines)
  /\ for_lines JSON_parse lines l
     = for_lines JSON_parse (List.filter has_prefix lines) l.
Proof.
  assert (H : chunks_of_lines JSON_parse lines
              = chunks_of_lines JSON_parse (List.filter has_prefix lines)).
  { unfold chunks_of_lines.
    induction lines as [|line rest IH]; [reflexivity |].
    cbn [List.filter]. destruct (has_prefix line) eqn:E.
    - change (omap (chunk_of_line JSON_parse) (line :: rest))
        with (match chunk_of_line JSON_parse line with
              | Some c => c :: omap (chunk_of_line JSON_parse) rest
              | None => omap (chunk_of_line JSON_parse) rest
              end).
      change (omap (chunk_of_line JSON_parse)
                (line :: List.filter has_prefix rest))
        with (match chunk_of_line JSON_parse line with
              | Some c =>
                  c :: omap (chunk_of_line JSON_parse)
                         (List.filter has_prefix rest)
              | None =>
                  omap (chunk_of_line JSON_parse) (List.filter has_prefix rest)
              end).
      now rewrite IH.
    - change (omap (chunk_of_line JSON_parse) (line :: rest))
        with (match chunk_of_line JSON_parse line with
              | Some c => c :: omap (chunk_of_line JSON_parse) rest
              | None => omap (chunk_of_line JSON_parse) rest
              end).
      now rewrite (chunk_of_line_without_prefix _ _ E). }
  split; [exact H |].
  now rewrite !for_lines_run, !run_lines_chunks, H.
Qed.

(** What one chunk adds to the accumulated rule content, when it is not
    an overriding [phase-end]. *)
Lemma apply_chunk_rule_increment chunk l :
  overrides "rule-generation" chunk = false ->
  currentRuleContent (apply_chunk chunk l)
  = currentRuleContent l
    +:+ (if is_rule_content chunk then default "" (chunk_content chunk)
         else "").
Proof.
  unfold overrides, is_rule_content, apply_chunk, switch_chunk.
  destruct (String.eqb (chunk_type chunk) "phase-start") eqn:E1.
  { apply String.eqb_eq in E1. rewrite E1. simpl. intros _.
    unfold phase_start. repeat case_decide; simpl; now rewrite append_empty_r. }
  destruct (String.eqb (chunk_type chunk) "rule-content") eqn:E2.
  { intros _. simpl. unfold rule_content.
    destruct (chunk_content chunk) as [[|c s]|]; simpl;
      now rewrite ?append_empty_r. }
  destruct (String.eqb (chunk_type chunk) "follow-up-content") eqn:E3.
  { intros _. simpl. unfold follow_up_content.
    destruct (truthy _); simpl; now rewrite append_empty_r. }
  destruct (String.eqb (chunk_type chunk) "phase-end") eqn:E4.
  { simpl. unfold phase_end. intros H.
    destruct (decide (chunk_phase chunk = Some "rule-generation")) as [Hp|Hp].
    - rewrite bool_decide_eq_true_2 in H by assumption. simpl in H.
      simpl. rewrite append_empty_r.
      now destruct (chunk_finalContent chunk) as [[|c s]|].
    - destruct (decide (chunk_phase chunk = Some "follow-up-message"));
        simpl; now rewrite append_empty_r. }
  intros _. destruct (String.eqb (chunk_type chunk) "error"); simpl;
    now rewrite append_empty_r.
Qed.

Lemma apply_chunk_follow_up_increment chunk l :
  overrides "follow-up-message" chunk = false ->
  currentFollowUpContent (apply_chunk chunk l)
  = currentFollowUpContent l
    +:+ (if is_follow_up_content chunk then default "" (chunk_content chunk)
         else "").
Proof.
  unfold overrides, is_follow_up_content, apply_chunk, switch_chunk.
  destruct (String.eqb (chunk_type chunk) "phase-start") eqn:E1.
  { apply String.eqb_eq in E1. rewrite E1. simpl. intros _.
    unfold phase_start. repeat case_decide; simpl; now rewrite append_empty_r. }
  destruct (String.eqb (chunk_type chunk) "rule-content") eqn:E2.
  { apply String.eqb_eq in E2. rewrite E2. simpl. intros _.
    unfold rule_content.
    destruct (truthy _); simpl; now rewrite append_empty_r. }
  destruct (String.eqb (chunk_type chunk) "follow-up-content") eqn:E3.
  { intros _. simpl. unfold follow_up_content.
    destruct (chunk_content chunk) as [[|c s]|]; simpl;
      now rewrite ?append_empty_r. }
  destruct (String.eqb (chunk_type chunk) "phase-end") eqn:E4.
  { simpl. unfold phase_end. intros H.
    destruct (decide (chunk_phase chunk = Some "rule-generation")) as [Hp|Hp];
      [simpl; now rewrite append_empty_r |].
    destruct (decide (chunk_phase chunk = Some "follow-up-message"))
      as [Hf|Hf]; simpl; [| now rewrite append_empty_r].
    rewrite bool_decide_eq_true_2 in H by assumption. simpl in H.
    rewrite append_empty_r.
    now destruct (chunk_finalContent chunk) as [[|c s]|]. }
  intros _. destruct (String.eqb (chunk_type chunk) "error"); simpl;
    now rewrite append_empty_r.
Qed.

(** X4.  Content accumulates by append.  Over any sequence of chunks in
    which no [phase-end] carries a non-empty final content, the rule
    content is the earlier one followed by the contents of the
    [rule-content] chunks, in order, and the follow-up content the earlier
    one followed by the contents of the [follow-up-content] chunks; chunks
    of other types, and content chunks whose content is empty or missing,
    add nothing. *)
Theorem content_accumulates_by_append chunks l :
  forallb (fun chunk => negb (overrides "rule-generation" chunk)
                        && negb (overrides "follow-up-message" chunk))
    chunks = true ->
  currentRuleContent (apply_chunks chunks l)
  = currentRuleContent l +:+ rule_increments chunks
  /\ currentFollowUpContent (apply_chunks chunks l)
     = currentFollowUpContent l +:+ follow_up_increments chunks
  /\ (coherent l ->
      ruleContent (state (apply_chunks chunks l))
      = ruleContent (state l) +:+ rule_increments chunks
      /\ followUpContent (state (apply_chunks chunks l))
         = followUpContent (state l) +:+ follow_up_increments chunks).
Proof.
  intros H.
  assert (Hacc : currentRuleContent (apply_chunks chunks l)
                 = currentRuleContent l +:+ rule_increments chunks
                 /\ currentFollowUpContent (apply_chunks chunks l)
                    = currentFollowUpContent l +:+ follow_up_increments chunks).
  { revert l. induction chunks as [|c cs IH]; intros l.
    - unfold rule_increments, follow_up_increments. simpl.
      now rewrite !append_empty_r.
    - simpl in H. apply andb_prop in H as [Hc Hcs].
      apply andb_prop in Hc as [Hr Hf].
      apply negb_true_iff in Hr, Hf.
      destruct (IH Hcs (apply_chunk c l)) as [IHr IHf].
      change (apply_chunks (c :: cs) l) with (apply_chunks cs (apply_chunk c l)).
      rewrite IHr, IHf.
      rewrite (apply_chunk_rule_increment c l Hr),
        (apply_chunk_follow_up_increment c l Hf).
      unfold rule_increments, follow_up_increments. simpl.
      split.
      + destruct (is_rule_content c); simpl.
        * now rewrite append_assoc.
        * now rewrite append_empty_r.
      + destruct (is_follow_up_content c); simpl.
        * now rewrite append_assoc.
        * now rewrite append_empty_r. }
  destruct Hacc as [Hr Hf]. split; [exact Hr |]. split; [exact Hf |].
  intros Hco.
  destruct (apply_chunks_coherent chunks l Hco) as [Hr' Hf'].
  destruct Hco as [Hr0 Hf0].
  now rewrite <- Hr', <- Hf', Hr, Hf, Hr0, Hf0.
Qed.

Lemma content_accumulates_by_append_witness :
  let chunks :=
    map wire [PhaseStart RuleGenerationPhase None; RuleContent "abc";
              RuleContent ""; RuleContent "def";
              PhaseEnd RuleGenerationPhase None;
              PhaseStart FollowUpPhase None; FollowUpContent "All set!"] in
  currentRuleContent (apply_chunks chunks (start_loop (on_entry idle_state)))
  = "abcdef"
  /\ currentFollowUpContent
       (apply_chunks chunks (start_loop (on_entry idle_state)))
     = "All set!".
Proof.
  cbv zeta.
  destruct (content_accumulates_by_append
              (map wire [PhaseStart RuleGenerationPhase None; RuleContent "abc";
                         RuleContent ""; RuleContent "def";
                         PhaseEnd RuleGenerationPhase None;
                         PhaseStart FollowUpPhase None;
                         FollowUpContent "All set!"])
              (start_loop (on_entry idle_state)) eq_refl) as [H1 [H2 _]].
  split; [exact H1 | exact H2].
Defined.

Lemma apply_chunk_never_resumes chunk l :
  (isGenerating (state l) = false ->
   isGenerating (state (apply_chunk chunk l)) = false)
  /\ (is_Some (error (state l)) ->
      is_Some (error (state (apply_chunk chunk l)))).
Proof.
  unfold apply_chunk, switch_chunk.
  repeat (destruct (String.eqb _ _); [simpl |]); try (now split).
  - unfold phase_start. repeat case_decide; now split.
  - unfold rule_content. destruct (truthy _); now split.
  - unfold follow_up_content. destruct (truthy _); now split.
  - unfold phase_end. repeat case_decide; now split.
Qed.

(** X5.  No event turns a finished session back on: once [isGenerating]
    is false it stays false over any further chunks, and once an error is
    recorded the error field is never cleared (a later error event can
    only replace its text). *)
Theorem finished_session_stays_finished chunks l :
  (isGenerating (state l) = false ->
   isGenerating (state (apply_chunks chunks l)) = false)
  /\ (is_Some (error (state l)) ->
      is_Some (error (state (apply_chunks chunks l)))).
Proof.
  revert l. induction chunks as [|c cs IH]; intros l; [now split |].
  destruct (apply_chunk_never_resumes c l) as [Hg He].
  destruct (IH (apply_chunk c l)) as [IHg IHe].
  split; intros H; [apply IHg, Hg, H | apply IHe, He, H].
Qed.

Lemma finished_session_stays_finished_witness :
  let l := apply_chunk (wire (ErrorEvent "boom"))
             (start_loop (on_entry idle_state)) in
  let later := map wire [PhaseStart RuleGenerationPhase None;
                         RuleContent "abc"] in
  isGenerating (state l) = false
  /\ isGenerating (state (apply_chunks later l)) = false
  /\ isStreamingRule (state (apply_chunks later l)) = true.
Proof.
  cbv zeta. split; [reflexivity |]. split; [| reflexivity].
  exact (proj1 (finished_session_stays_finished
                  (map wire [PhaseStart RuleGenerationPhase None;
                             RuleContent "abc"])
                  (apply_chunk (wire (ErrorEvent "boom"))
                     (start_loop (on_entry idle_state)))) eq_refl).
Defined.

Lemma apply_chunk_keeps_metadata chunk l :
  starts_rule chunk = false ->
  loop_metadata (apply_chunk chunk l) = loop_metadata l
  /\ metadata (state (apply_chunk chunk l)) = metadata (state l).
Proof.
  unfold starts_rule, apply_chunk, switch_chunk.
  destruct (String.eqb (chunk_type chunk) "phase-start") eqn:E1.
  { simpl. intros H. apply bool_decide_eq_false in H.
    unfold phase_start.
    destruct (decide (chunk_phase chunk = Some "rule-generation"));
      [contradiction |].
    now destruct (decide (chunk_phase chunk = Some "follow-up-message")). }
  intros _.
  repeat (destruct (String.eqb _ _); [simpl |]); try (now split).
  - unfold rule_content. destruct (truthy _); now split.
  - unfold follow_up_content. destruct (truthy _); now split.
  - unfold phase_end. repeat case_decide; now split.
Qed.

(** X6.  The rule type and file name of the result come from the stream
    alone.  When the stream delivers no [phase-start] of the
    rule-generation phase, the result names [PROJECT_RULE] and
    [generated-rule], while the state keeps the metadata it had before the
    call (for instance what [setRuleContent] stored). *)
Theorem result_defaults_without_phase_start
    JSON_parse request now response prev fragments :
  ok response = true ->
  body response = Some fragments ->
  forallb (fun chunk => negb (starts_rule chunk)) (observed JSON_parse fragments)
  = true ->
  exists s result,
    generateRule JSON_parse request now response prev = (s, Resolved result)
    /\ res_ruleType result = PROJECT_RULE
    /\ res_fileName result = "generated-rule"
    /\ metadata s = metadata prev.
Proof.
  intros Hok Hbody Hno.
  rewrite (generateRule_resolves JSON_parse request now response prev
             fragments Hok Hbody).
  eexists _, _. split; [reflexivity |].
  assert (H : forall l,
            loop_metadata (apply_chunks (observed JSON_parse fragments) l)
            = loop_metadata l
            /\ metadata (state (apply_chunks (observed JSON_parse fragments) l))
               = metadata (state l)).
  { induction (observed JSON_parse fragments) as [|c cs IH]; intros l;
      [now split |].
    simpl in Hno. apply andb_prop in Hno as [Hc Hcs].
    apply negb_true_iff in Hc.
    destruct (apply_chunk_keeps_metadata c l Hc) as [H1 H2].
    destruct (IH Hcs (apply_chunk c l)) as [H3 H4].
    change (apply_chunks (c :: cs) l) with (apply_chunks cs (apply_chunk c l)).
    split; congruence. }
  destruct (H (start_loop (on_entry prev))) as [Hl Hs].
  unfold result_of. rewrite Hl, Hs. now repeat split.
Qed.

Lemma result_defaults_without_phase_start_witness :
  let prev := setRuleContent "# Rule" (Some COMMAND) (Some "lint")
                idle_state in
  exists s result,
    generateRule sample_parse sample_request 0
      (response_with [terminated (data_line (RuleContent "abc"))]) prev
    = (s, Resolved result)
    /\ res_ruleType result = PROJECT_RULE
    /\ res_fileName result = "generated-rule"
    /\ metadata s = Some {| ruleType := COMMAND; fileName := Some "lint" |}.
Proof.
  cbv zeta.
  apply (result_defaults_without_phase_start sample_parse sample_request 0
           (response_with [terminated (data_line (RuleContent "abc"))])
           (setRuleContent "# Rule" (Some COMMAND) (Some "lint") idle_state)
           [terminated (data_line (RuleContent "abc"))]); reflexivity.
Defined.

End SessionFacts.

(* ===================================================================== *)
(** ** More about the panel: mentions, sending, reset, hidden messages *)
(* ===================================================================== *)

Module ChatFacts.
Import JS ChatPanel Chat Sample PanelFacts.

Lemma mentioned_iff (f : MentionedFile) (prev : list MentionedFile) :
  existsb (fun g => String.eqb (path g) (path f)) prev = true
  <-> path f ∈ map path prev.
Proof.
  rewrite existsb_exists, list_elem_of_fmap. split.
  - intros [g [Hg He]]. apply String.eqb_eq in He.
    exists g. split; [now symmetry | now apply list_elem_of_In].
  - intros [g [He Hg]]. exists g.
    split; [now apply list_elem_of_In | now apply String.eqb_eq].
Qed.

Lemma remove_absent (p : string) (prev : list MentionedFile) :
  p ∉ map path prev -> handleRemoveMention p prev = prev.
Proof.
  unfold handleRemoveMention.
  induction prev as [|g prev IH]; [reflexivity |].
  simpl. intros H. apply not_elem_of_cons in H as [Hne Hrest].
  assert (E : String.eqb (path g) p = false)
    by (apply String.eqb_neq; congruence).
  rewrite E. simpl. now rewrite (IH Hrest).
Qed.

(** X7.  The mentioned files never hold two entries with one path.
    Dropping a file whose path is already mentioned changes nothing
    (whatever its name or type), so dropping is idempotent; removing the
    path of a file just dropped gives the earlier list back; after a
    removal the path is gone; and a drag that ends anywhere but on the chat
    input leaves the mentions alone. *)
Theorem mentions_hold_each_path_once
    (f : MentionedFile) (prev : list MentionedFile) :
  NoDup (map path prev) ->
  NoDup (map path (handleFileDrop f prev))
  /\ (path f ∈ map path (handleFileDrop f prev))
  /\ (path f ∈ map path prev -> handleFileDrop f prev = prev)
  /\ handleFileDrop f (handleFileDrop f prev) = handleFileDrop f prev
  /\ (path f ∉ map path prev ->
      handleRemoveMention (path f) (handleFileDrop f prev) = prev)
  /\ (forall p, p ∉ map path (handleRemoveMention p prev))
  /\ (forall p, NoDup (map path (handleRemoveMention p prev)))
  /\ (forall over data,
        over <> Some "chat-input-droppable" ->
        handleDragEnd over data prev = prev).
Proof.
  intros Hnd. pose proof (mentioned_iff f prev) as Hm.
  assert (Hfresh : path f ∉ map path prev ->
                   handleFileDrop f prev = prev ++ [f]).
  { intros Hn. unfold handleFileDrop.
    destruct (existsb _ prev); [| reflexivity].
    exfalso. apply Hn, Hm. reflexivity. }
  assert (Hold : path f ∈ map path prev -> handleFileDrop f prev = prev).
  { intros Hi. unfold handleFileDrop. apply Hm in Hi. now rewrite Hi. }
  assert (Hin : path f ∈ map path (handleFileDrop f prev)).
  { destruct (decide (path f ∈ map path prev)) as [Hi | Hn].
    - now rewrite (Hold Hi).
    - rewrite (Hfresh Hn), map_app. apply elem_of_app. right.
      apply list_elem_of_singleton. reflexivity. }
  split; [| split; [exact Hin | split; [exact Hold | split; [| split; [| split; [| split]]]]]].
  - destruct (decide (path f ∈ map path prev)) as [Hi | Hn].
    + now rewrite (Hold Hi).
    + rewrite (Hfresh Hn), map_app. apply NoDup_app.
      split; [assumption |]. split.
      * intros x Hx Hx'. simpl in Hx'. apply list_elem_of_singleton in Hx'.
        subst x. contradiction.
      * apply NoDup_singleton.
  - unfold handleFileDrop at 1.
    pose proof (mentioned_iff f (handleFileDrop f prev)) as Hm'.
    destruct (existsb _ (handleFileDrop f prev)); [reflexivity |].
    apply Hm' in Hin. discriminate.
  - intros Hn. rewrite (Hfresh Hn). unfold handleRemoveMention.
    rewrite List.filter_app. simpl. rewrite String.eqb_refl. simpl.
    rewrite app_nil_r. now apply remove_absent.
  - intros p Hp. unfold handleRemoveMention in Hp.
    apply list_elem_of_fmap in Hp as [g [Hg Hin']].
    apply list_elem_of_In, filter_In in Hin' as [_ Hne].
    apply negb_true_iff, String.eqb_neq in Hne. congruence.
  - intros p. unfold handleRemoveMention. clear Hm Hfresh Hold Hin.
    induction prev as [|g prev IH]; [constructor |].
    simpl in *. apply NoDup_cons in Hnd as [Hg Hnd].
    destruct (negb _); simpl; [| now apply IH].
    apply NoDup_cons. split; [| now apply IH].
    intros Hin. apply Hg.
    apply list_elem_of_fmap in Hin as [h [Hh Hin]].
    apply list_elem_of_fmap. exists h. split; [assumption |].
    apply list_elem_of_In. apply list_elem_of_In, filter_In in Hin. tauto.
  - intros over data Hover. unfold handleDragEnd.
    destruct over as [target|]; [| reflexivity].
    destruct data as [d|]; [| reflexivity].
    destruct (String.eqb target "chat-input-droppable") eqn:E; [| reflexivity].
    apply String.eqb_eq in E. congruence.
Qed.

Lemma mentions_hold_each_path_once_witness :
  let readme := {| name := "README.md"; path := "README.md"; type := file |} in
  let src := {| name := "src"; path := "src"; type := directory |} in
  let renamed := {| name := "readme"; path := "README.md";
                    type := directory |} in
  NoDup (map path [readme; src])
  /\ handleFileDrop renamed [readme; src] = [readme; src]
  /\ NoDup (map path (handleFileDrop renamed [readme; src])).
Proof.
  cbv zeta.
  assert (H : NoDup (map path
                       [{| name := "README.md"; path := "README.md";
                           type := file |};
                        {| name := "src"; path := "src"; type := directory |}])).
  { simpl. apply NoDup_cons. split.
    - intros Hin. apply list_elem_of_singleton in Hin. discriminate.
    - apply NoDup_singleton. }
  split; [exact H |]. split; [reflexivity |].
  exact (proj1 (mentions_hold_each_path_once
                  {| name := "readme"; path := "README.md";
                     type := directory |} _ H)).
Defined.

Lemma trim_nonempty (s : string) : String.eqb (trim s) "" = false -> s <> "".
Proof. intros H ->. discriminate. Qed.

(** X8.  [handleSend] sends nothing while the input is blank or the chat
    is streaming: the composer is unchanged.  Otherwise it hands the input
    to [sendMessage] as typed (untrimmed), clears the input and appends an
    optimistic user message; from then on the panel displays the
    optimistic messages alone, the last of them as a user bubble with the
    text sent, until the clearing effect fires, which it does as soon as
    the chat has any message. *)
Theorem handleSend_sends_nonblank_input
    (now : nat) (status : ChatStatus) (c : Composer) :
  (String.eqb (trim (input c)) "" = true \/ status = streaming_status ->
   handleSend now status c = c)
  /\ (String.eqb (trim (input c)) "" = false ->
      status <> streaming_status ->
      let c' := handleSend now status c in
      input c' = ""
      /\ sent c' = sent c ++ [input c]
      /\ (forall chatMessages,
            exists m,
              messages chatMessages (optimisticMessages c')
              = optimisticMessages c ++ [m]
              /\ msg_id m = "optimistic-" +:+ show_nat now
              /\ render_message ∅ m = [MessageBubble user (input c)])
      /\ (forall m chatMessages,
            clear_optimistic (m :: chatMessages) (optimisticMessages c') = []
            /\ messages (m :: chatMessages)
                 (clear_optimistic (m :: chatMessages) (optimisticMessages c'))
               = m :: chatMessages)
      /\ clear_optimistic [] (optimisticMessages c') = optimisticMessages c').
Proof.
  unfold handleSend. split.
  - intros [H | ->]; [now rewrite H |]. now rewrite orb_true_r.
  - intros Hin Hst. rewrite Hin. simpl.
    assert (Hs : match status with streaming_status => true | _ => false end
                 = false) by now destruct status.
    rewrite Hs. cbv zeta. simpl.
    pose proof (trim_nonempty _ Hin) as Hne.
    split; [reflexivity |]. split; [reflexivity |]. split; [| split].
    + intros chatMessages.
      exists {| msg_id := "optimistic-" +:+ show_nat now; role := user;
                parts := Some [TextUIPart (input c) None];
                content := None |}.
      split; [| split; [reflexivity |]].
      * unfold messages.
        destruct (optimisticMessages c ++ _) eqn:E; [| reflexivity].
        now apply app_eq_nil in E as [_ E].
      * unfold render_message. simpl.
        now destruct (input c).
    + intros m chatMessages. unfold clear_optimistic.
      now destruct (optimisticMessages c ++ _) eqn:E.
    + unfold clear_optimistic.
      now destruct (optimisticMessages c ++ _).
Qed.

Lemma handleSend_sends_nonblank_input_witness :
  let c := {| input := " add lint rules "; optimisticMessages := [];
              sent := [] |} in
  handleSend 7 streaming_status c = c
  /\ sent (handleSend 7 ready c) = [" add lint rules "].
Proof.
  cbv zeta. split.
  - apply (proj1 (handleSend_sends_nonblank_input 7 streaming_status _)).
    now right.
  - apply (proj2 (handleSend_sends_nonblank_input 7 ready
                    {| input := " add lint rules "; optimisticMessages := [];
                       sent := [] |}));
      [reflexivity | discriminate].
Defined.

(** White space beyond ASCII is blank too: an input of a no-break space,
    a byte order mark, a line separator and an ideographic space is not
    sent, and [trim] strips a no-break space and a line separator around
    a text while it keeps a zero width space (U+200B), which is no white
    space. *)
Example unicode_blank_input_is_not_sent :
  let utf8 := fold_right (fun n s => String (ascii_of_nat n) s) "" in
  let nbsp := utf8 [194; 160] in
  let bom := utf8 [239; 187; 191] in
  let line_separator := utf8 [226; 128; 168] in
  let ideographic_space := utf8 [227; 128; 128] in
  let zero_width_space := utf8 [226; 128; 139] in
  let c := {| input := nbsp +:+ bom +:+ " " +:+ line_separator
                       +:+ ideographic_space;
              optimisticMessages := []; sent := [] |} in
  handleSend 7 ready c = c
  /\ trim (nbsp +:+ "a b" +:+ line_separator) = "a b"
  /\ trim (zero_width_space +:+ "a" +:+ nbsp) = zero_width_space +:+ "a".
Proof. cbv zeta. repeat split; reflexivity. Qed.

Section Effects.

Variable JSON_parse : string -> option StreamingEvent.

(** For a message not yet recorded, what the message effect pushes and
    reports depends on the snapshot only. *)
Lemma message_effect_fresh chatMessages p i :
  settled i chatMessages = true ->
  i ∉ processedMessageIdsRef p ->
  exists m ps,
    last chatMessages = Some m /\ msg_id m = i /\ parts m = Some ps
    /\ snd (message_effect JSON_parse chatMessages p)
       = Processing i (parse_message JSON_parse m ps)
    /\ pendingEventsRef (fst (message_effect JSON_parse chatMessages p))
       = pendingEventsRef p ++ parse_message JSON_parse m ps
    /\ eventOnlyMessageIds (fst (message_effect JSON_parse chatMessages p))
       = match parse_message JSON_parse m ps with
         | [] => eventOnlyMessageIds p
         | _ :: _ => eventOnlyMessageIds p ∪ {[ i ]}
         end.
Proof.
  unfold settled, message_effect. intros Hs Hi.
  destruct (last chatMessages) as [m|]; [| discriminate].
  destruct (role m); try discriminate.
  apply andb_prop in Hs as [Hid Hd]. apply String.eqb_eq in Hid. subst i.
  unfold isDone in *. destruct (parts m) as [ps|] eqn:Hp; [| discriminate].
  simpl in Hd. simpl. rewrite Hd. simpl.
  rewrite bool_decide_eq_false_2 by assumption.
  exists m, ps. repeat split; try reflexivity;
    now destruct (parse_message JSON_parse m ps).
Qed.

(** X9.  [resetSession] reopens the guard.  However a message was
    recorded before, after a reset the next render that presents it
    settled hands it to the parser again, with the verdict of a first
    presentation, and its events are queued again; the reset itself leaves
    the panel not generating, with empty rule content, and calls
    [onRuleGenerationEnd]. *)
Theorem resetSession_reopens_the_guard chatMessages p i :
  settled i chatMessages = true ->
  let p1 := fst (render JSON_parse chatMessages p) in
  (forall j es, snd (render JSON_parse chatMessages p1) <> Processing j es)
  /\ snd (render JSON_parse chatMessages (resetSession p1))
     = snd (render JSON_parse chatMessages initial)
  /\ (exists es,
        snd (render JSON_parse chatMessages (resetSession p1))
        = Processing i es)
  /\ isGeneratingRules (resetSession p1) = false
  /\ ruleContent (resetSession p1) = ""
  /\ calls (resetSession p1) = calls p1 ++ [onRuleGenerationEnd].
Proof.
  intros Hs. cbv zeta.
  set (p1 := fst (render JSON_parse chatMessages p)).
  assert (Hrec : i ∈ processedMessageIdsRef p1).
  { unfold p1. rewrite render_processed.
    destruct (decide (i ∈ processedMessageIdsRef p)) as [Hi | Hn].
    - now apply message_effect_recorded.
    - now apply message_effect_first. }
  assert (Hfresh : forall q, i ∉ processedMessageIdsRef q ->
            exists es, snd (render JSON_parse chatMessages q) = Processing i es
                       /\ snd (render JSON_parse chatMessages initial)
                          = Processing i es).
  { intros q Hq.
    destruct (message_effect_fresh chatMessages q i Hs Hq)
      as [m [ps [Hl [_ [Hp [Hv _]]]]]].
    destruct (message_effect_fresh chatMessages initial i Hs
                (not_elem_of_empty i)) as [m' [ps' [Hl' [_ [Hp' [Hv' _]]]]]].
    rewrite Hl in Hl'. injection Hl' as <-.
    rewrite Hp in Hp'. injection Hp' as <-.
    exists (parse_message JSON_parse m ps). now rewrite !render_verdict. }
  split; [| split; [| split; [| now repeat split]]].
  - intros j es Hv. rewrite render_verdict in Hv.
    apply message_effect_processing in Hv as [Hsj [Hnj _]].
    unfold settled in Hs, Hsj.
    destruct (last chatMessages) as [m|]; [| discriminate].
    destruct (role m); try discriminate.
    apply andb_prop in Hs as [Hi _]. apply andb_prop in Hsj as [Hj _].
    apply String.eqb_eq in Hi, Hj. subst. contradiction.
  - destruct (Hfresh (resetSession p1) (not_elem_of_empty i)) as [es [H1 H2]].
    now rewrite H1, H2.
  - destruct (Hfresh (resetSession p1) (not_elem_of_empty i)) as [es [H1 _]].
    now exists es.
Qed.

(** X10.  A settled assistant message is hidden as soon as one of its
    lines is a valid event.  When the message effect first processes it
    and the parser accepts at least one event, the message is marked
    event-only and renders no bubble at all from then on, whatever other
    text its parts hold; when the parser accepts nothing, the marks are
    unchanged. *)
Theorem message_with_an_event_is_hidden chatMessages p i :
  settled i chatMessages = true ->
  i ∉ processedMessageIdsRef p ->
  exists m es,
    last chatMessages = Some m
    /\ snd (message_effect JSON_parse chatMessages p) = Processing i es
    /\ (es <> [] ->
        render_message
          (eventOnlyMessageIds (fst (message_effect JSON_parse chatMessages p)))
          m = [])
    /\ (es = [] ->
        eventOnlyMessageIds (fst (message_effect JSON_parse chatMessages p))
        = eventOnlyMessageIds p).
Proof.
  intros Hs Hi.
  destruct (message_effect_fresh chatMessages p i Hs Hi)
    as [m [ps [Hl [Hid [Hp [Hv [_ He]]]]]]].
  exists m, (parse_message JSON_parse m ps).
  split; [assumption |]. split; [assumption |]. split.
  - intros Hne. rewrite He.
    destruct (parse_message JSON_parse m ps); [contradiction |].
    unfold render_message, settled in *. rewrite Hl in Hs.
    destruct (role m); try discriminate.
    rewrite bool_decide_eq_true_2; [reflexivity |].
    rewrite Hid. apply elem_of_union. right. now apply elem_of_singleton.
  - intros Hnil. rewrite He. now rewrite Hnil.
Qed.

End Effects.

Lemma resetSession_reopens_the_guard_witness :
  let m := assistant_message "m3" (terminated (chunk_text "hi")) done in
  let p1 := fst (render sample_parse_event [m] initial) in
  settled "m3" [m] = true
  /\ snd (render sample_parse_event [m] p1) = AlreadyProcessed "m3"
  /\ snd (render sample_parse_event [m] (resetSession p1))
     = snd (render sample_parse_event [m] initial).
Proof.
  cbv zeta. split; [reflexivity |]. split; [reflexivity |].
  exact (proj1 (proj2 (resetSession_reopens_the_guard sample_parse_event
                         [assistant_message "m3" (terminated (chunk_text "hi"))
                            done] initial "m3" eq_refl))).
Defined.

Lemma message_with_an_event_is_hidden_witness :
  let m := assistant_message "m4"
             (terminated "Here is your rule:" +:+ chunk_text "hi") done in
  settled "m4" [m] = true
  /\ render_message (eventOnlyMessageIds initial) m
     = [MessageBubble assistant
          (terminated "Here is your rule:" +:+ chunk_text "hi")]
  /\ render_message
       (eventOnlyMessageIds (fst (message_effect sample_parse_event [m] initial)))
       m = [].
Proof.
  cbv zeta. split; [reflexivity |]. split; [reflexivity |].
  destruct (message_with_an_event_is_hidden sample_parse_event
              [assistant_message "m4"
                 (terminated "Here is your rule:" +:+ chunk_text "hi") done]
              initial "m4" eq_refl (not_elem_of_empty _))
    as [m [es [Hl [Hv [Hh _]]]]].
  injection Hl as <-. apply Hh.
  intros ->. discriminate Hv.
Defined.

End ChatFacts.

(* ===================================================================== *)
(** ** Batches of events: the panel's handler and the page behind it *)
(* ===================================================================== *)

Module BatchFacts.
Import JS ChatPanel Chat Sample DecoderFacts PanelFacts.

Lemma handle_chunks_generating r es p :
  render_isGeneratingRules r = true ->
  Forall is_chunk es ->
  handle_all r es p
  = {| isGeneratingRules := isGeneratingRules p;
       ruleContent := ruleContent p +:+ concat_text (map content_of es);
       eventOnlyMessageIds := eventOnlyMessageIds p;
       pendingEventsRef := pendingEventsRef p;
       processedMessageIdsRef := processedMessageIdsRef p;
       calls := calls p ++ updates r es |}.
Proof.
  intros Hr Hes. revert p.
  induction Hes as [|e es He _ IH]; intros p.
  - simpl. rewrite append_empty_r, app_nil_r. now destruct p.
  - unfold handle_all in *. simpl. rewrite IH.
    unfold handleStreamingEvent. unfold is_chunk in He. rewrite He, Hr.
    simpl. unfold updates. simpl.
    now rewrite append_assoc, <- app_assoc.
Qed.

Lemma handle_chunks_idle r es p :
  render_isGeneratingRules r = false ->
  Forall is_chunk es ->
  handle_all r es p = p.
Proof.
  intros Hr Hes. revert p.
  induction Hes as [|e es He _ IH]; intros p; [reflexivity |].
  unfold handle_all in *. simpl. rewrite IH.
  unfold handleStreamingEvent. unfold is_chunk in He. now rewrite He, Hr.
Qed.

Lemma handle_reserved r es p :
  Forall is_reserved es -> handle_all r es p = p.
Proof.
  intros Hes. revert p.
  induction Hes as [|e es He _ IH]; intros p; [reflexivity |].
  unfold handle_all in *. simpl. rewrite IH.
  unfold handleStreamingEvent. now destruct He as [-> | ->].
Qed.

(** X11.  A batch of [chunk] events handled in a render that is
    generating appends the contents of all its chunks, in order, to the
    panel's rule content; but each [onRuleGenerationUpdate] call carries
    the rule content of the render followed by the content of that one
    chunk, not the content accumulated within the batch. *)
Theorem chunk_batch_in_a_generating_render r es p :
  render_isGeneratingRules r = true ->
  Forall is_chunk es ->
  ruleContent (handle_all r es p)
  = ruleContent p +:+ concat_text (map content_of es)
  /\ calls (handle_all r es p)
     = calls p
       ++ map (fun e =>
                 onRuleGenerationUpdate (render_ruleContent r +:+ content_of e))
            es
  /\ isGeneratingRules (handle_all r es p) = isGeneratingRules p.
Proof.
  intros Hr Hes. now rewrite (handle_chunks_generating r es p Hr Hes).
Qed.

Lemma chunk_batch_in_a_generating_render_witness :
  let p := setRuleContent (fun _ => "# ") (setIsGeneratingRules true initial) in
  let es := [chunk_event "hi"; chunk_event "there"] in
  ruleContent (handle_all (render_of p) es p) = "# hithere"
  /\ calls (handle_all (render_of p) es p)
     = [onRuleGenerationUpdate "# hi"; onRuleGenerationUpdate "# there"].
Proof.
  cbv zeta.
  destruct (chunk_batch_in_a_generating_render
              (render_of (setRuleContent (fun _ => "# ")
                            (setIsGeneratingRules true initial)))
              [chunk_event "hi"; chunk_event "there"]
              (setRuleContent (fun _ => "# ")
                 (setIsGeneratingRules true initial))
              eq_refl ltac:(repeat constructor)) as [H1 [H2 _]].
  split; [exact H1 | exact H2].
Defined.

(** X12.  A batch that opens with [meta] and goes on with [chunk] events,
    handled in a render that is not generating (a whole generation arriving
    in one message): the [meta] event marks the panel generating and
    empties the rule content, and every chunk of the batch is dropped,
    because the handler still sees the flag of its render.  The rule
    content is empty after the batch and no update is sent to the page. *)
Theorem generation_in_one_batch_loses_its_chunks r m es p :
  render_isGeneratingRules r = false ->
  event m = Some "meta" ->
  Forall is_chunk es ->
  let p' := handle_all r (m :: es) p in
  isGeneratingRules p' = true
  /\ ruleContent p' = ""
  /\ calls p'
     = calls p ++ match payload m with
                  | Some meta => [onRuleGenerationStart meta]
                  | None => []
                  end.
Proof.
  intros Hr Hm Hes. cbv zeta. unfold handle_all. simpl.
  fold (handle_all r es (handleStreamingEvent r m p)).
  rewrite (handle_chunks_idle r es _ Hr Hes).
  unfold handleStreamingEvent, call_if_payload. rewrite Hm. simpl.
  destruct (payload m); simpl; [now repeat split |].
  now rewrite app_nil_r.
Qed.

Lemma generation_in_one_batch_loses_its_chunks_witness :
  let text := terminated (bare_text "meta") +:+ terminated (chunk_text "hi")
              +:+ chunk_text "there" in
  let m := assistant_message "m5" text done in
  snd (render sample_parse_event [m] initial)
  = Processing "m5" [bare_event "meta"; chunk_event "hi"; chunk_event "there"]
  /\ ruleContent (fst (render sample_parse_event [m] initial)) = ""
  /\ ruleContent
       (handle_all (render_of initial)
          [bare_event "meta"; chunk_event "hi"; chunk_event "there"] initial)
     = "".
Proof.
  cbv zeta. split; [reflexivity |]. split; [reflexivity |].
  exact (proj1 (proj2 (generation_in_one_batch_loses_its_chunks
                         (render_of initial) (bare_event "meta")
                         [chunk_event "hi"; chunk_event "there"] initial
                         eq_refl eq_refl ltac:(repeat constructor)))).
Defined.

Section Reserved.

Variable JSON_parse : string -> option StreamingEvent.

(** X13.  The reserved events [progress] and [file] pass the parser's
    validation but are not handled.  A settled message whose lines parse to
    reserved events only is marked event-only and renders no bubble, while
    the render leaves the rule content, the generating flag and the calls to
    the page as they were. *)
Theorem reserved_events_hide_the_message_and_change_nothing
    chatMessages p i m ps :
  last chatMessages = Some m ->
  parts m = Some ps ->
  settled i chatMessages = true ->
  i ∉ processedMessageIdsRef p ->
  pendingEventsRef p = [] ->
  parse_message JSON_parse m ps <> [] ->
  Forall is_reserved (parse_message JSON_parse m ps) ->
  let p' := fst (render JSON_parse chatMessages p) in
  Forall (fun e => valid_event e = true) (parse_message JSON_parse m ps)
  /\ render_message (eventOnlyMessageIds p') m = []
  /\ ruleContent p' = ruleContent p
  /\ isGeneratingRules p' = isGeneratingRules p
  /\ calls p' = calls p.
Proof.
  intros Hl Hp Hs Hi Hpend Hne Hres. cbv zeta.
  destruct (ChatFacts.message_effect_fresh JSON_parse chatMessages p i Hs Hi)
    as [m' [ps' [Hl' [Hid [Hp' [Hv [Hq He]]]]]]].
  rewrite Hl in Hl'. injection Hl' as <-.
  rewrite Hp in Hp'. injection Hp' as <-.
  split.
  - eapply Forall_impl; [exact Hres |].
    intros e [H | H]; unfold valid_event; now rewrite H.
  - unfold render.
    destruct (message_effect JSON_parse chatMessages p) as [q v] eqn:E.
    simpl in *. rewrite Hpend in Hq. simpl in Hq.
    assert (Hq' : pending_effect (render_of p) q
                  = handle_all (render_of p) (parse_message JSON_parse m ps)
                      (clear_pending q)).
    { unfold pending_effect. rewrite Hq.
      now destruct (parse_message JSON_parse m ps). }
    rewrite Hq', (handle_reserved _ _ _ Hres). simpl.
    assert (Hsame : ruleContent q = ruleContent p
                    /\ isGeneratingRules q = isGeneratingRules p
                    /\ calls q = calls p).
    { revert E. unfold message_effect. rewrite Hl.
      unfold settled in Hs. rewrite Hl in Hs.
      destruct (role m); try discriminate.
      apply andb_prop in Hs as [_ Hd]. rewrite Hd. simpl.
      rewrite bool_decide_eq_false_2 by (rewrite <- Hid in Hi; assumption).
      rewrite Hp. intros [= <- _].
      now destruct (parse_message JSON_parse m ps). }
    destruct Hsame as [H1 [H2 H3]].
    split; [| now repeat split].
    rewrite He. destruct (parse_message JSON_parse m ps); [contradiction |].
    unfold render_message, settled in *. rewrite Hl in Hs.
    destruct (role m); try discriminate.
    rewrite bool_decide_eq_true_2; [reflexivity |].
    rewrite Hid. apply elem_of_union. right. now apply elem_of_singleton.
Qed.

End Reserved.

End BatchFacts.

Module ReservedWitness.
Import JS ChatPanel Chat Sample BatchFacts.

Lemma reserved_events_hide_the_message_and_change_nothing_witness :
  let m := assistant_message "m6" (bare_text "progress") done in
  let p := setRuleContent (fun _ => "# Rule") initial in
  parse_message progress_parse m [TextUIPart (bare_text "progress") (Some done)]
  = [bare_event "progress"]
  /\ render_message (eventOnlyMessageIds (fst (render progress_parse [m] p))) m
     = []
  /\ ruleContent (fst (render progress_parse [m] p)) = "# Rule".
Proof.
  cbv zeta. split; [reflexivity |].
  destruct (reserved_events_hide_the_message_and_change_nothing progress_parse
              [assistant_message "m6" (bare_text "progress") done]
              (setRuleContent (fun _ => "# Rule") initial) "m6"
              (assistant_message "m6" (bare_text "progress") done)
              [TextUIPart (bare_text "progress") (Some done)]
              eq_refl eq_refl eq_refl (not_elem_of_empty _) eq_refl
              ltac:(discriminate)
              ltac:(repeat constructor)) as [_ [H1 [H2 _]]].
  split; [exact H1 | exact H2].
Defined.

End ReservedWitness.

(* ===================================================================== *)
(** ** The page behind the panel *)
(* ===================================================================== *)

Module PageFacts.
Import JS ChatPanel Chat Sample BatchFacts.

Lemma deliver_keeps_clarify c s :
  is_Some (Page.clarifyMessage s) ->
  is_Some (Page.clarifyMessage (Page.deliver c s))
  /\ (Page.showRightPanel s = true ->
      Page.showRightPanel (Page.deliver c s) = true).
Proof.
  intros H. destruct c; simpl; split; auto.
Qed.

(** X14.  A clarification request stays on screen.  Once a [clarify]
    event has set the page's clarify message, no call of the panel's props
    removes it: whatever is started, updated or ended afterwards, the open
    rules panel takes the clarification branch and never shows the rule
    being generated.  The branch shows the message and the required fields
    of the clarify payload held then, and throws when that payload has no
    [required_fields].  Only [handleResetSession] clears the message. *)
Theorem clarification_hides_later_rules
    (required_fields : Payload -> option (list string))
    (cs : list Callback) (s : Page.PageState) (p : Panel) :
  is_Some (Page.clarifyMessage s) ->
  Page.showRightPanel s = true ->
  let s' := Page.deliver_all cs s in
  (exists clarify,
     Page.clarifyMessage s' = Some clarify
     /\ Page.rules_view required_fields s'
        = match required_fields clarify with
          | Some fields =>
              Page.ClarificationNeeded (message clarify)
                (map Page.replace_underscore fields)
          | None => Page.RenderThrows
          end)
  /\ Page.shows_rule (Page.rules_view required_fields s') = false
  /\ Page.clarifyMessage (snd (Page.handleResetSession p s')) = None.
Proof.
  intros Hc Hs. cbv zeta.
  assert (H : is_Some (Page.clarifyMessage (Page.deliver_all cs s))
              /\ Page.showRightPanel (Page.deliver_all cs s) = true).
  { revert s Hc Hs. induction cs as [|c cs IH]; intros s Hc Hs; [now split |].
    destruct (deliver_keeps_clarify c s Hc) as [Hc' Hs'].
    apply (IH (Page.deliver c s) Hc' (Hs' Hs)). }
  destruct H as [[clarify Hc'] Hs'].
  assert (Hv : Page.rules_view required_fields (Page.deliver_all cs s)
               = match required_fields clarify with
                 | Some fields =>
                     Page.ClarificationNeeded (message clarify)
                       (map Page.replace_underscore fields)
                 | None => Page.RenderThrows
                 end)
    by (unfold Page.rules_view; now rewrite Hs', Hc').
  split; [now exists clarify |]. split; [| reflexivity].
  rewrite Hv. now destruct (required_fields clarify).
Qed.

Lemma clarification_hides_later_rules_witness :
  let required_fields (_ : Payload) := Some ["tech_stack"] in
  let s := Page.deliver (onClarify Page.clarify_payload) Page.blank_page in
  let later := [onRuleGenerationStart Page.clarify_payload;
                onRuleGenerationUpdate "# Rule"; onRuleGenerationEnd] in
  is_Some (Page.clarifyMessage s)
  /\ Page.shows_rule (Page.rules_view required_fields (Page.deliver_all later s))
     = false
  /\ Page.rules_view required_fields (Page.deliver_all later s)
     = Page.ClarificationNeeded (Some "Which framework?") ["tech stack"]
  /\ Page.rules_view (fun _ => None) (Page.deliver_all later s)
     = Page.RenderThrows
  /\ Page.streamingRuleContent (Page.deliver_all later s) = "# Rule".
Proof.
  cbv zeta. split; [now eexists |].
  split; [| repeat split; reflexivity].
  exact (proj1 (proj2 (clarification_hides_later_rules
                         (fun _ => Some ["tech_stack"])
                         [onRuleGenerationStart Page.clarify_payload;
                          onRuleGenerationUpdate "# Rule"; onRuleGenerationEnd]
                         (Page.deliver (onClarify Page.clarify_payload)
                            Page.blank_page)
                         initial
                         (ex_intro _ Page.clarify_payload eq_refl) eq_refl))).
Defined.

(** X15.  The page shows less than the panel holds.  After a batch of
    [chunk] events handled in a generating render, the panel's rule content
    has grown by every chunk of the batch, while the page, fed by the
    batch's [onRuleGenerationUpdate] calls, shows the rule content of the
    render followed by the last chunk only. *)
Theorem page_shows_only_the_last_chunk_of_a_batch
    (r : Render) (es : list StreamingEvent) (e : StreamingEvent) (p : Panel)
    (s : Page.PageState) :
  render_isGeneratingRules r = true ->
  Forall is_chunk (es ++ [e]) ->
  exists news,
    calls (handle_all r (es ++ [e]) p) = calls p ++ news
    /\ Page.streamingRuleContent (Page.deliver_all news s)
       = render_ruleContent r +:+ content_of e
    /\ ruleContent (handle_all r (es ++ [e]) p)
       = ruleContent p +:+ concat_text (map content_of (es ++ [e])).
Proof.
  intros Hr Hes. exists (updates r (es ++ [e])).
  rewrite (handle_chunks_generating r _ p Hr Hes). simpl.
  split; [reflexivity |]. split; [| reflexivity].
  unfold updates, Page.deliver_all. rewrite map_app, fold_left_app.
  reflexivity.
Qed.

Lemma page_shows_only_the_last_chunk_of_a_batch_witness :
  let p := setRuleContent (fun _ => "# ") (setIsGeneratingRules true initial) in
  exists news,
    calls (handle_all (render_of p) ([chunk_event "hi"] ++ [chunk_event "there"])
             p) = calls p ++ news
    /\ Page.streamingRuleContent (Page.deliver_all news Page.blank_page)
       = "# there"
    /\ ruleContent
         (handle_all (render_of p) ([chunk_event "hi"] ++ [chunk_event "there"])
            p)
       = "# hithere".
Proof.
  cbv zeta.
  exact (page_shows_only_the_last_chunk_of_a_batch
           (render_of (setRuleContent (fun _ => "# ")
                         (setIsGeneratingRules true initial)))
           [chunk_event "hi"] (chunk_event "there")
           (setRuleContent (fun _ => "# ") (setIsGeneratingRules true initial))
           Page.blank_page eq_refl ltac:(repeat constructor)).
Defined.

End PageFacts.

(* ===================================================================== *)
(** ** The backend: configuration, stream options and the chat endpoint *)
(* ===================================================================== *)

Module BackendFacts.
Import JS Backend.

(** X16.  The model configuration is consistent and is not enforced.
    For every provider the default model is one of the supported models
    and the list names no model twice; [createAIModel] without a model, or
    with an empty one, builds the default model; and with any other name
    it builds that model whether [isModelSupported] accepts it or not. *)
Theorem default_model_is_supported_and_unchecked
    (provider : option AIProvider) (model : string) :
  isModelSupported (getDefaultModel provider) provider = true
  /\ NoDup (getAvailableModels provider)
  /\ createAIModel provider None = groq (getDefaultModel provider)
  /\ createAIModel provider (Some "") = groq (getDefaultModel provider)
  /\ (model <> "" -> createAIModel provider (Some model) = groq model)
  /\ isModelSupported "gpt-4" provider = false.
Proof.
  destruct provider as [[]|]; repeat split;
    try (intros H; now destruct model).
  - apply (proj1 (bool_decide_eq_true _)). vm_compute. reflexivity.
  - apply (proj1 (bool_decide_eq_true _)). vm_compute. reflexivity.
Qed.

Section Endpoint.

Variable ModelMessage : Type.
Variable loadTemplate : option string.
Variable convertToModelMessages :
  list ChatPanel.UIMessage -> option (list ModelMessage).

(** X17.  [generateStream] always builds the Groq model (the requested
    one, or the default), but it attaches provider options only when the
    provider is given explicitly and at least one hint is set ([user]
    counts only when it is not empty); without a provider the hints are
    dropped although the model is the same.  [maxTokens] reaches
    [streamText] only when it is not zero. *)
Theorem provider_options_need_an_explicit_provider
    (o : StreamRequest ModelMessage) :
  so_model ModelMessage (generateStream ModelMessage o)
  = groq (or_else (model ModelMessage o) "llama-3.3-70b-versatile")
  /\ (provider ModelMessage o = None ->
      providerOptions ModelMessage (generateStream ModelMessage o) = None)
  /\ (is_Some (providerOptions ModelMessage (generateStream ModelMessage o))
      <-> provider ModelMessage o = Some GROQ
          /\ (let h := groq_hints ModelMessage o in
              is_Some (reasoningFormat h) \/ is_Some (reasoningEffort h)
              \/ is_Some (parallelToolCalls h)
              \/ truthy (user h) = true
              \/ is_Some (serviceTier h)))
  /\ (forall g,
        providerOptions ModelMessage (generateStream ModelMessage o) = Some g ->
        g = groqOptions_of (groq_hints ModelMessage o))
  /\ (so_maxTokens ModelMessage (generateStream ModelMessage o) = None
      <-> maxTokens ModelMessage o = None
          \/ exists n, maxTokens ModelMessage o = Some n /\ nonzero n = false).
Proof.
  unfold generateStream. simpl.
  split; [now destruct (provider ModelMessage o) as [[]|] |].
  split; [now intros -> |]. split; [| split].
  - destruct (provider ModelMessage o) as [[]|].
    + unfold has_keys, groqOptions_of. cbv zeta.
      destruct (groq_hints ModelMessage o) as [f e pc u st]. simpl.
      split.
      * intros H. split; [reflexivity |].
        destruct f; [left; now eexists |].
        destruct e; [right; left; now eexists |].
        destruct pc; [right; right; left; now eexists |].
        destruct (truthy u) eqn:Hu;
          [right; right; right; left; reflexivity |].
        destruct st; [right; right; right; right; now eexists |].
        simpl in H. now destruct H.
      * intros [_ H].
        destruct f; [now eexists |].
        destruct e; [now eexists |].
        destruct pc; [now eexists |].
        destruct (truthy u) eqn:Hu.
        { destruct u as [[|c s]|]; try discriminate. now eexists. }
        destruct st; [now eexists |].
        destruct H as [[? H] | [[? H] | [[? H] | [H | [? H]]]]];
          discriminate.
    + split; [intros [? H]; discriminate | intros [H _]; discriminate].
  - intros g. destruct (provider ModelMessage o) as [[]|]; [| discriminate].
    destruct (has_keys _); [| discriminate]. now intros [= <-].
  - destruct (maxTokens ModelMessage o) as [n|].
    + destruct (nonzero n) eqn:E.
      * split; [discriminate |].
        intros [H | [n' [[= <-] H]]]; [discriminate | congruence].
      * split; [| reflexivity]. intros _. right. now exists n.
    + split; [now left | reflexivity].
Qed.

(** The hints the [chat] endpoint passes to [generateStream]. *)
Lemma chat_options body options :
  chat ModelMessage loadTemplate convertToModelMessages body = Piped _ options ->
  exists e m systemPrompt modelMessages,
    extract body = Some e
    /\ last (ex_messages e) = Some m
    /\ ChatPanel.role m = ChatPanel.user
    /\ (truthy (ChatPanel.content m) = true \/ hasParts m = true)
    /\ loadTemplate = Some systemPrompt
    /\ convertToModelMessages (ex_messages e) = Some modelMessages
    /\ options
       = generateStream ModelMessage
           {| messages := modelMessages; system := Some systemPrompt;
              model := ex_model e; provider := ex_provider e;
              temperature := Some (temperature_or_default (ex_temperature e));
              maxTokens := ex_maxTokens e;
              groq_hints :=
                {| reasoningFormat := None; reasoningEffort := None;
                   parallelToolCalls := Some true; user := None;
                   serviceTier := Some flex |} |}.
Proof.
  unfold chat. destruct (extract body) as [e|]; [| discriminate].
  destruct (last (ex_messages e)) as [m|] eqn:Hl; [| discriminate].
  destruct (ChatPanel.role m) eqn:Hr; try discriminate.
  destruct (negb (truthy (ChatPanel.content m)) && negb (hasParts m)) eqn:Hv;
    [discriminate |].
  case_eq loadTemplate; [intros sp Ht | intros Ht; discriminate].
  destruct (convertToModelMessages (ex_messages e)) as [mm|] eqn:Hm;
    [| discriminate].
  intros [= <-]. exists e, m, sp, mm.
  split; [reflexivity |]. split; [auto |]. split; [auto |].
  split; [| repeat split; auto].
  destruct (truthy (ChatPanel.content m)); [now left |].
  destruct (hasParts m); [now right | discriminate].
Qed.


(** X19.  What the chat endpoint asks of the model.  Whenever it streams,
    the temperature handed on is the request's when that is not zero and
    0.3 otherwise, never absent; the system prompt is the loaded template;
    and although the endpoint always asks for parallel tool calls on the
    flex tier, these options reach [streamText] only when the request names
    the provider: a request without [provider] (an array body always) gets
    the Groq model with no provider options. *)
Theorem chat_passes_hints_only_with_a_provider body options :
  chat ModelMessage loadTemplate convertToModelMessages body = Piped _ options ->
  exists e,
    extract body = Some e
    /\ so_temperature _ options
       = Some (temperature_or_default (ex_temperature e))
    /\ nonzero (temperature_or_default (ex_temperature e)) = true
    /\ so_system _ options = loadTemplate
    /\ so_model _ options
       = groq (or_else (ex_model e) "llama-3.3-70b-versatile")
    /\ providerOptions _ options
       = match ex_provider e with
         | Some GROQ =>
             Some {| reasoningFormat := None; reasoningEffort := None;
                     parallelToolCalls := Some true; user := None;
                     serviceTier := Some flex |}
         | None => None
         end
    /\ (forall ms, body = ArrayBody ms -> providerOptions _ options = None).
Proof.
  intros H. apply chat_options in H
    as [e [m [sp [mm [He [Hl [Hr [Hc [Ht [Hm ->]]]]]]]]]].
  exists e. split; [assumption |]. split; [reflexivity |].
  split.
  { unfold temperature_or_default.
    destruct (ex_temperature e) as [n|]; [| reflexivity].
    now destruct (nonzero n) eqn:E. }
  split; [now rewrite Ht |]. split.
  { unfold generateStream. simpl. now destruct (ex_provider e) as [[]|]. }
  split.
  { unfold generateStream. simpl. now destruct (ex_provider e) as [[]|]. }
  intros ms ->. simpl in He. injection He as <-. reflexivity.
Qed.

End Endpoint.

End BackendFacts.

Module BackendWitness.
Import JS Backend BackendFacts.


Lemma chat_passes_hints_only_with_a_provider_witness :
  let o := {| body_messages := None;
              body_message := Some (StringValue "Create React rules");
              body_model := None; body_provider := None;
              body_temperature := Some (QArith_base.Qmake 0 1);
              body_maxTokens := None |} in
  exists options,
    chat ChatPanel.UIMessage (Some "prompt") (fun ms => Some ms) (ObjectBody o)
    = Piped _ options
    /\ providerOptions _ options = None
    /\ so_temperature _ options = Some (QArith_base.Qmake 3 10)
    /\ so_model _ options = groq "llama-3.3-70b-versatile".
Proof.
  cbv zeta. eexists. split; [reflexivity |].
  destruct (chat_passes_hints_only_with_a_provider ChatPanel.UIMessage
              (Some "prompt") (fun ms => Some ms)
              (ObjectBody
                 {| body_messages := None;
                    body_message := Some (StringValue "Create React rules");
                    body_model := None; body_provider := None;
                    body_temperature := Some (QArith_base.Qmake 0 1);
                    body_maxTokens := None |})
              _ eq_refl) as [e [He [Ht [_ [_ [Hm [Hp _]]]]]]].
  injection He as <-. split; [exact Hp |]. split; [exact Ht | exact Hm].
Defined.

End BackendWitness.

(* ===================================================================== *)
(** ** The file tree: retry policy and folder toggling *)
(* ===================================================================== *)

Module FileTreeFacts.
Import JS FileTree.

Local Open Scope N_scope.

(** X20.  The retry policy of the file tree query.  A 401 is never
    retried; any other failure is retried while fewer than three failures
    were counted.  The delay before a retry doubles from one second, never
    decreases, is exactly [1000 * 2 ^ n] up to the fifth attempt and is
    capped at thirty seconds from then on. *)
Theorem retry_policy_backs_off_up_to_thirty_seconds (n m : N) :
  retryDelay n <= 30000
  /\ 1000 <= retryDelay n
  /\ (n <= m -> retryDelay n <= retryDelay m)
  /\ (n <= 4 -> retryDelay n = 1000 * 2 ^ n)
  /\ (5 <= n -> retryDelay n = 30000)
  /\ retry n (Some 401) = false
  /\ (forall code, code <> Some 401 -> retry n code = (n <? 3)).
Proof.
  unfold retryDelay.
  assert (Hpos : forall k, 1 <= 2 ^ k).
  { intros k. change 1 with (2 ^ 0). apply N.pow_le_mono_r; lia. }
  split; [apply N.le_min_r |]. split.
  { pose proof (Hpos n). apply N.min_glb; lia. }
  split.
  { intros Hnm. apply N.min_le_compat_r.
    apply N.mul_le_mono_l. apply N.pow_le_mono_r; lia. }
  split.
  { intros Hn. apply N.min_l.
    assert (H : 2 ^ n <= 2 ^ 4) by (apply N.pow_le_mono_r; lia).
    change (2 ^ 4) with 16 in H. lia. }
  split.
  { intros Hn. apply N.min_r.
    assert (H : 2 ^ 5 <= 2 ^ n) by (apply N.pow_le_mono_r; lia).
    change (2 ^ 5) with 32 in H. lia. }
  split; [reflexivity |].
  intros [code|] Hc; [| reflexivity].
  unfold retry. destruct (N.eqb code 401) eqn:E; [| reflexivity].
  apply N.eqb_eq in E. congruence.
Qed.

(** Induction over a tree of nodes, with the children of a node. *)
Lemma FileNode_induction (P : FileNode -> Prop) :
  (forall name np ty children isExpanded,
     match children with
     | Some cs => List.Forall P cs
     | None => True
     end ->
     P (Node name np ty children isExpanded)) ->
  forall n, P n.
Proof.
  intros H. fix IH 1. intros [name np ty children isExpanded].
  apply H. destruct children as [cs|]; [| exact I].
  induction cs as [|c cs IHcs]; constructor; [apply IH | apply IHcs].
Qed.

Lemma toggle_shape p n : shape (toggle p n) = shape n.
Proof.
  induction n as [name np ty children isExpanded IH] using FileNode_induction.
  simpl. destruct (String.eqb np p); [reflexivity |].
  destruct children as [cs|]; [| reflexivity].
  simpl. do 2 f_equal. simpl in IH.
  induction IH as [|c cs Hc _ IHcs]; [reflexivity |].
  simpl. now rewrite Hc, IHcs.
Qed.

Lemma toggle_absent p n : p ∉ paths n -> toggle p n = n.
Proof.
  induction n as [name np ty children isExpanded IH] using FileNode_induction.
  simpl. intros Hn. apply not_elem_of_cons in Hn as [Hne Hrest].
  assert (E : String.eqb np p = false) by (apply String.eqb_neq; congruence).
  rewrite E. destruct children as [cs|]; [| reflexivity].
  do 2 f_equal. simpl in IH.
  induction IH as [|c cs Hc _ IHcs]; [reflexivity |].
  simpl in *. rewrite elem_of_app in Hrest.
  rewrite Hc, IHcs; tauto.
Qed.

Lemma toggle_flagged p n : flagged n = true -> toggle p (toggle p n) = n.
Proof.
  induction n as [name np ty children isExpanded IH] using FileNode_induction.
  simpl. intros Hf. apply andb_prop in Hf as [He Hcs].
  destruct (String.eqb np p) eqn:E; simpl; rewrite ?E.
  - destruct isExpanded as [b|]; [| discriminate].
    simpl. now rewrite negb_involutive.
  - destruct children as [cs|]; simpl; rewrite ?E; [| reflexivity].
    do 2 f_equal. simpl in IH.
    induction IH as [|c cs Hc _ IHcs]; [reflexivity |].
    simpl in *. apply andb_prop in Hcs as [H1 H2].
    now rewrite Hc, IHcs.
Qed.

Lemma toggle_thrice p n : toggle p (toggle p (toggle p n)) = toggle p n.
Proof.
  induction n as [name np ty children isExpanded IH] using FileNode_induction.
  simpl. destruct (String.eqb np p) eqn:E; simpl; rewrite ?E; simpl;
    rewrite ?E.
  - now rewrite negb_involutive.
  - destruct children as [cs|]; simpl; rewrite ?E; simpl; rewrite ?E;
      [| reflexivity].
    do 2 f_equal. simpl in IH.
    induction IH as [|c cs Hc _ IHcs]; [reflexivity |].
    simpl. now rewrite Hc, IHcs.
Qed.

(** X21.  Toggling a folder changes expansion flags only: names, paths,
    types and the shape of the tree stay.  Toggling a path that no node
    has changes nothing.  Toggling twice restores a tree all of whose nodes
    carry a flag; a node without one reads as collapsed, so the first
    toggle expands it and the second leaves it collapsed but flagged, and
    in every case a third toggle equals the first.  Without cached data
    [handleToggle] leaves the cache empty. *)
Theorem toggle_changes_flags_only (p : string) (nodes : list FileNode) :
  map shape (toggleNode p nodes) = map shape nodes
  /\ (p ∉ flat_map paths nodes -> toggleNode p nodes = nodes)
  /\ (forallb flagged nodes = true ->
      toggleNode p (toggleNode p nodes) = nodes)
  /\ toggleNode p (toggleNode p (toggleNode p nodes)) = toggleNode p nodes
  /\ handleToggle p None = None
  /\ handleToggle p (Some nodes) = Some (toggleNode p nodes).
Proof.
  unfold toggleNode. repeat split.
  - induction nodes as [|n ns IH]; [reflexivity |].
    simpl. now rewrite toggle_shape, IH.
  - induction nodes as [|n ns IH]; [reflexivity |].
    simpl. intros H. rewrite elem_of_app in H.
    rewrite toggle_absent, IH; tauto.
  - induction nodes as [|n ns IH]; [reflexivity |].
    simpl. intros H. apply andb_prop in H as [H1 H2].
    now rewrite toggle_flagged, IH.
  - induction nodes as [|n ns IH]; [reflexivity |].
    simpl. now rewrite toggle_thrice, IH.
Qed.

Example toggle_unflagged_folder :
  let folder := Node "src" "src" Chat.directory
                  (Some [Node "a.ts" "src/a.ts" Chat.file None None]) None in
  toggleNode "src" [folder]
  = [Node "src" "src" Chat.directory
       (Some [Node "a.ts" "src/a.ts" Chat.file None None]) (Some true)]
  /\ toggleNode "src" (toggleNode "src" [folder])
     = [Node "src" "src" Chat.directory
          (Some [Node "a.ts" "src/a.ts" Chat.file None None]) (Some false)].
Proof. split; reflexivity. Qed.

End FileTreeFacts.
